(** * cc-link-checker: a shallow embedding of [link_checker.py]

    The script walks the legal-code files of creativecommons.org, derives the
    public URL of each file, extracts its anchors, and probes every link once,
    memoising the outcome in the module-level dictionary [scraped_links].

    Part I embeds the program: Python values and exceptions, the string
    primitives the script uses, the module globals as an explicit state, and
    every function of the script as a computation over that state.
    Part II proves the properties of the specification. *)

From Stdlib Require Import ZArith String Ascii List Bool Lia.
From stdpp Require Import base option list gmap strings.

Local Open Scope Z_scope.

(* ===================================================================== *)
(** * Part I: the program                                                 *)
(* ===================================================================== *)

(** ** Python values and exceptions *)

(** The exceptions that can escape the script's own code. *)
Inductive exn : Type :=
| IndexError        (* sequence or string index out of range *)
| KeyError          (* [link["href"]] on a tag without that attribute *)
| NameError         (* a module global read before its first assignment *)
| ValueError        (* raised by [urlsplit] / [urljoin] on a malformed URL *)
| RequestException  (* any [requests] failure other than a handled timeout *)
| AttributeError.   (* an attribute of [None]: [soup.table.tbody], [licens.string.split] *)

Inductive result (A : Type) : Type :=
| Ok (a : A)
| Raise (e : exn).
Arguments Ok {A} a.
Arguments Raise {A} e.

Definition bindR {A B} (r : result A) (k : A -> result B) : result B :=
  match r with
  | Ok a => k a
  | Raise e => Raise e
  end.

Notation "'try!' x ':=' r 'in' k" := (bindR r (fun x => k))
  (at level 10, x name, r at level 100, k at level 200).

(** What [scrape] returns, "String or Number": an [int] status code or one of
    the script's message strings. *)
Inductive status : Type :=
| StatusCode (c : Z)
| StatusStr (s : string).

Global Instance status_eq_dec : EqDecision status.
Proof. solve_decision. Defined.

(** Python truthiness, as tested by [if status:]. *)
Definition truthy (v : status) : bool :=
  match v with
  | StatusCode c => negb (c =? 0)
  | StatusStr s => negb (String.eqb s "")
  end.

(** [status not in [200, "ignore"]]. *)
Definition not_in_200_ignore (v : status) : bool :=
  match v with
  | StatusCode c => negb (c =? 200)
  | StatusStr s => negb (String.eqb s "ignore")
  end.

(** ** String and list primitives

    A Python [str] is modelled by [string], one [ascii] per character. *)

(** [s.split(sep)] for a one-character separator: never empty, one more part
    than there are separators. *)
Fixpoint py_split (sep : ascii) (s : string) : list string :=
  match s with
  | EmptyString => [EmptyString]
  | String c s' =>
      if Ascii.eqb c sep then EmptyString :: py_split sep s'
      else match py_split sep s' with
           | p :: ps => String c p :: ps
           | [] => [String c EmptyString]
           end
  end.

(** [xs[i]] for [i >= 0]. *)
Definition index {A} (xs : list A) (i : nat) : result A :=
  match xs !! i with
  | Some x => Ok x
  | None => Raise IndexError
  end.

(** [xs[-1]]. *)
Definition index_last {A} (xs : list A) : result A :=
  match List.rev xs with
  | x :: _ => Ok x
  | [] => Raise IndexError
  end.

(** [s[i]] on a string. *)
Definition str_index (s : string) (i : nat) : result ascii :=
  match String.get i s with
  | Some c => Ok c
  | None => Raise IndexError
  end.

(** [s[:-5]]: everything but the last five characters, empty when [s] is
    shorter. *)
Definition drop_last5 (s : string) : string :=
  String.substring 0 (String.length s - 5) s.

(** ** create_base_link *)

Definition create_base_link (filename : string) : result string :=
  let base := "https://creativecommons.org" in
  let parts := py_split "_" filename in
  try! part0 := index parts 0 in
  let extra :=
    if String.eqb part0 "samplingplus" then "/licenses/sampling+"
    else if String.prefix "zero" part0 then "/publicdomain/" +:+ part0
    else "/licenses/" +:+ part0 in
  try! part1 := index parts 1 in
  let extra := extra +:+ "/" +:+ part1 in
  if String.eqb part0 "samplingplus" && (length parts =? 3)%nat then
    try! part2 := index parts 2 in
    let extra := extra +:+ "/" +:+ part2 +:+ "/legalcode" in
    Ok (base +:+ extra)
  else
    try! extra :=
      (if (length parts =? 4)%nat
       then try! part2 := index parts 2 in Ok (extra +:+ "/" +:+ part2)
       else Ok extra) in
    let extra := extra +:+ "/legalcode" in
    try! extra :=
      (if (3 <=? length parts)%nat
       then try! lastp := index_last parts in Ok (extra +:+ "." +:+ lastp)
       else Ok extra) in
    Ok (base +:+ extra).


(** ** Anchors, URLs and the outside world *)

(** A [bs4] anchor tag: its [href] attribute, if any, and its markup (what
    [print] shows). *)
Record Tag : Type := mkTag {
  tag_href : option string;
  tag_markup : string
}.

(** [urllib.parse.SplitResult]. *)
Record SplitResult : Type := mkSplit {
  scheme : string;
  netloc : string;
  path : string;
  query : string;
  fragment : string
}.

(** [analyse._replace(scheme=s)]. *)
Definition replace_scheme (s : string) (u : SplitResult) : SplitResult :=
  {| scheme := s; netloc := netloc u; path := path u;
     query := query u; fragment := fragment u |}.

(** The outcome of one [requests.get]: a response (status code and body), the
    [requests.exceptions.Timeout] that [get_status] handles, or any other
    exception of the library. *)
Inductive reply : Type :=
| Response (status_code : Z) (content : string)
| TimedOut
| Failure.

(** What the script prints on stdout or writes to the error file. *)
Inductive event : Type :=
| Blank
| NowChecking (name : string)
| SkipNonHtml (name : string)
| Url (u : string)
| LinksFound (n : nat)
| ErrorsAndWarnings
| NoHref (link : Tag)
| InternalLink (link : Tag)
| ErrorsHeader
| DocHeader (name : string)
| Broken (s : status) (link : Tag)
| ErrorFilePresent
| FilesToCheck (n : nat).

(** ** The module globals as a state *)

(** [err_code], [verbose], [output_err], [scraped_links] and [base_url] are the
    script's module-level variables ([base_url] is unbound until the document
    loop first assigns it).  [stdout] and [errfile] are what has been printed
    and written.  The last three fields are observers that the script does not
    have: every URL handed to [requests.get], every argument [scrape] was
    called with, and every result the link loop got from [check_existing]. *)
Record State : Type := mkState {
  err_code : Z;
  verbose : bool;
  output_err : bool;
  scraped_links : gmap string status;
  base_url : option string;
  stdout : list event;
  errfile : list event;
  requests : list string;
  scrape_calls : list string;
  checked : list (Tag * status)
}.

Definition initial (v o : bool) : State :=
  {| err_code := 0; verbose := v; output_err := o; scraped_links := ∅;
     base_url := None; stdout := []; errfile := [];
     requests := []; scrape_calls := []; checked := [] |}.

Definition M (A : Type) : Type := State -> result A * State.

Definition ret {A} (a : A) : M A := fun st => (Ok a, st).

Definition raise {A} (e : exn) : M A := fun st => (Raise e, st).

Definition bind {A B} (m : M A) (k : A -> M B) : M B :=
  fun st =>
    match m st with
    | (Ok a, st') => k a st'
    | (Raise e, st') => (Raise e, st')
    end.

Definition lift {A} (r : result A) : M A := fun st => (r, st).

Definition gets {A} (f : State -> A) : M A := fun st => (Ok (f st), st).

Definition modify (f : State -> State) : M unit := fun st => (Ok tt, f st).

Notation "'let!' x ':=' m 'in' k" := (bind m (fun x => k))
  (at level 10, x name, m at level 100, k at level 200).
Notation "m ;; k" := (bind m (fun _ => k))
  (at level 100, k at level 200, right associativity).

Definition when (b : bool) (m : M unit) : M unit := if b then m else ret tt.

(** A [for] loop that threads one local variable through its body. *)
Fixpoint for_each {A L} (body : A -> L -> M L) (xs : list A) (acc : L) : M L :=
  match xs with
  | [] => ret acc
  | x :: xs' => let! acc' := body x acc in for_each body xs' acc'
  end.

(** Assignments to the globals and appends to the logs. *)
Definition set_err_code (e : Z) (st : State) : State :=
  {| err_code := e; verbose := verbose st; output_err := output_err st;
     scraped_links := scraped_links st; base_url := base_url st;
     stdout := stdout st; errfile := errfile st; requests := requests st;
     scrape_calls := scrape_calls st; checked := checked st |}.

Definition set_scraped_links (m : gmap string status) (st : State) : State :=
  {| err_code := err_code st; verbose := verbose st;
     output_err := output_err st;
     scraped_links := m; base_url := base_url st;
     stdout := stdout st; errfile := errfile st; requests := requests st;
     scrape_calls := scrape_calls st; checked := checked st |}.

Definition set_base_url (b : string) (st : State) : State :=
  {| err_code := err_code st; verbose := verbose st;
     output_err := output_err st;
     scraped_links := scraped_links st; base_url := Some b;
     stdout := stdout st; errfile := errfile st; requests := requests st;
     scrape_calls := scrape_calls st; checked := checked st |}.

Definition add_stdout (e : event) (st : State) : State :=
  {| err_code := err_code st; verbose := verbose st;
     output_err := output_err st;
     scraped_links := scraped_links st; base_url := base_url st;
     stdout := stdout st ++ [e]; errfile := errfile st;
     requests := requests st;
     scrape_calls := scrape_calls st; checked := checked st |}.

Definition add_errfile (e : event) (st : State) : State :=
  {| err_code := err_code st; verbose := verbose st;
     output_err := output_err st;
     scraped_links := scraped_links st; base_url := base_url st;
     stdout := stdout st; errfile := errfile st ++ [e];
     requests := requests st;
     scrape_calls := scrape_calls st; checked := checked st |}.

Definition add_request (u : string) (st : State) : State :=
  {| err_code := err_code st; verbose := verbose st;
     output_err := output_err st;
     scraped_links := scraped_links st; base_url := base_url st;
     stdout := stdout st; errfile := errfile st;
     requests := requests st ++ [u];
     scrape_calls := scrape_calls st; checked := checked st |}.

Definition add_scrape_call (u : string) (st : State) : State :=
  {| err_code := err_code st; verbose := verbose st;
     output_err := output_err st;
     scraped_links := scraped_links st; base_url := base_url st;
     stdout := stdout st; errfile := errfile st; requests := requests st;
     scrape_calls := scrape_calls st ++ [u]; checked := checked st |}.

Definition add_checked (l : Tag) (s : status) (st : State) : State :=
  {| err_code := err_code st; verbose := verbose st;
     output_err := output_err st;
     scraped_links := scraped_links st; base_url := base_url st;
     stdout := stdout st; errfile := errfile st; requests := requests st;
     scrape_calls := scrape_calls st; checked := checked st ++ [(l, s)] |}.

(** [print(...)]. *)
Definition print (e : event) : M unit := modify (add_stdout e).

(** [verbose_print]: prints only if the verbose flag is set. *)
Definition verbose_print (e : event) : M unit :=
  let! v := gets verbose in when v (print e).

(** [output_write]: writes to the error file if one was asked for. *)
Definition output_write (e : event) : M unit :=
  let! o := gets output_err in when o (modify (add_errfile e)).

(** Reading the module global [base_url]. *)
Definition read_base_url : M string :=
  let! b := gets base_url in
  match b with
  | Some u => ret u
  | None => raise NameError
  end.

(** ** The functions of the script *)

Module link_checker.

Section Script.

(** The library functions the script calls.  [urlsplit] and [urljoin] may
    raise [ValueError]; [geturl] is [SplitResult.geturl]; [requests_get]
    answers a request for a URL given the requests made before it, so the
    network may answer the same URL differently over time; [find_all_a] is
    the parse of a page followed by [find_all("a")]. *)
Variable urlsplit : string -> result SplitResult.
Variable geturl : SplitResult -> string.
Variable urljoin : string -> string -> result string.
Variable requests_get : list string -> string -> reply.
Variable find_all_a : string -> list Tag.

(** [requests.get(url, ...)], logged. *)
Definition http_get (url : string) : M reply :=
  let! earlier := gets requests in
  modify (add_request url) ;;
  ret (requests_get earlier url).

(** The body refers to the module global [base_url]: the function has no
    parameter or local of that name. *)
Definition create_absolute_link (link_analysis : SplitResult) (href : string)
  : M string :=
  if String.eqb (scheme link_analysis) ""
     && String.eqb (netloc link_analysis) ""
     && negb (String.eqb (path link_analysis) "")
  then
    let! b := read_base_url in
    lift (urljoin b href)
  else ret href.

Definition get_status (href : string) : M status :=
  let! res := http_get href in
  match res with
  | TimedOut => ret (StatusStr "Timeout Error")
  | Response status_code _ => ret (StatusCode status_code)
  | Failure => raise RequestException
  end.

Definition scrape (href : string) : M status :=
  modify (add_scrape_call href) ;;
  let! analyse := lift (urlsplit href) in
  if String.eqb (scheme analyse) ""
     || String.eqb (scheme analyse) "https"
     || String.eqb (scheme analyse) "http"
  then
    let analyse :=
      if String.eqb (scheme analyse) ""
      then replace_scheme "https" analyse else analyse in
    let href := geturl analyse in
    let! res := get_status href in
    ret res
  else if String.eqb (scheme analyse) "mailto" then
    ret (StatusStr "ignore")
  else
    ret (StatusStr "Invalid protocol detected").

(** [link["href"]]. *)
Definition get_href (link : Tag) : M string :=
  match tag_href link with
  | Some h => ret h
  | None => raise KeyError
  end.

(** The parameter [base_url] shadows the global of the same name and is not
    used by the body. *)
Definition check_existing (link : Tag) (base_url : string) : M status :=
  let! href := get_href link in
  let! analyse := lift (urlsplit href) in
  let! href := create_absolute_link analyse href in
  let! status := gets (fun st => scraped_links st !! href) in
  let otherwise :=
    let! status := scrape href in
    modify (fun st =>
      set_scraped_links (<[href := status]> (scraped_links st)) st) ;;
    ret status in
  match status with
  | Some v => if truthy v then ret v else otherwise
  | None => otherwise
  end.

(** The body of [for link in links_in_license]; [caught_errors] is the
    loop-carried local of the enclosing document. *)
Definition link_body (licens_string : string) (link : Tag)
    (caught_errors : nat) : M nat :=
  match tag_href link with
  | None =>
      verbose_print (NoHref link) ;;
      ret caught_errors
  | Some href =>
      let! c := lift (str_index href 0) in
      if Ascii.eqb c "#" then
        verbose_print (InternalLink link) ;;
        ret caught_errors
      else
        let! b := read_base_url in
        let! status := check_existing link b in
        modify (add_checked link status) ;;
        if not_in_200_ignore status then
          let caught_errors := S caught_errors in
          when (caught_errors =? 1)%nat
            (let! v := gets verbose in
             when (negb v) (print ErrorsHeader) ;;
             output_write (DocHeader licens_string)) ;;
          modify (set_err_code 1) ;;
          print (Broken status link) ;;
          output_write (Broken status link) ;;
          ret caught_errors
        else ret caught_errors
  end.

Definition base : string :=
  "https://raw.githubusercontent.com/creativecommons/creativecommons.org/master/docroot/legalcode/".

(** The body of [for licens in all_links], given [licens.string]. *)
Definition license_body (licens_string : string) (_ : unit) : M unit :=
  let caught_errors := 0%nat in
  let check_extension := py_split "." licens_string in
  let page_url := base +:+ licens_string in
  print Blank ;;
  print (NowChecking licens_string) ;;
  let! ext := lift (index_last check_extension) in
  if negb (String.eqb ext "html") then
    verbose_print (SkipNonHtml licens_string)
  else
    let filename := drop_last5 licens_string in
    let! b := lift (create_base_link filename) in
    modify (set_base_url b) ;;
    print (Url b) ;;
    let! source_html := http_get page_url in
    match source_html with
    | Response _ content =>
        let links_in_license := find_all_a content in
        verbose_print (LinksFound (length links_in_license)) ;;
        verbose_print ErrorsAndWarnings ;;
        for_each (link_body licens_string) links_in_license caught_errors ;;
        ret tt
    | TimedOut | Failure => raise RequestException
    end.

(** The document loop and the end of the script, from the point where
    [all_links] is known: [all_links] holds [licens.string] of every entry
    of the listing.  The value is the argument of [sys.exit].  The run of
    the whole module, with the listing fetched first, is [toplevel.script]
    below. *)
Definition main (all_links : list string) : M Z :=
  for_each license_body all_links tt ;;
  let! o := gets output_err in
  when o (print ErrorFilePresent) ;;
  gets err_code.

End Script.

End link_checker.

Import link_checker.

(** ** Terms used to state the properties *)

Section Terms.

Variable urlsplit : string -> result SplitResult.
Variable geturl : SplitResult -> string.
Variable requests_get : list string -> string -> reply.

(** The three-way test of [create_absolute_link]. *)
Definition is_relative (a : SplitResult) : bool :=
  String.eqb (scheme a) "" && String.eqb (netloc a) ""
  && negb (String.eqb (path a) "").

(** The URL that [scrape] requests for a parsed link. *)
Definition request_url (analyse : SplitResult) : string :=
  geturl (if String.eqb (scheme analyse) ""
          then replace_scheme "https" analyse else analyse).

(** The answer of [get_status], read off the network's reply. *)
Definition status_of_reply (r : reply) : result status :=
  match r with
  | Response status_code _ => Ok (StatusCode status_code)
  | TimedOut => Ok (StatusStr "Timeout Error")
  | Failure => Raise RequestException
  end.

(** The miss branch of [check_existing]. *)
Definition scrape_and_store (href : string) : M status :=
  let! status := scrape urlsplit geturl requests_get href in
  modify (fun st =>
    set_scraped_links (<[href := status]> (scraped_links st)) st) ;;
  ret status.

(** What the link loop does with the result of [check_existing]. *)
Definition judge (licens_string : string) (link : Tag) (status : status)
    (caught_errors : nat) : M nat :=
  modify (add_checked link status) ;;
  if not_in_200_ignore status then
    let caught_errors := S caught_errors in
    when (caught_errors =? 1)%nat
      (let! v := gets verbose in
       when (negb v) (print ErrorsHeader) ;;
       output_write (DocHeader licens_string)) ;;
    modify (set_err_code 1) ;;
    print (Broken status link) ;;
    output_write (Broken status link) ;;
    ret caught_errors
  else ret caught_errors.

End Terms.

(** ** Assertions about computations *)

(** [m] leaves the observation [f] of the state as it was, whatever it
    returns. *)
Definition keeps {X A} (f : State -> X) (m : M A) : Prop :=
  forall st, f (snd (m st)) = f st.

(** From a state in [P], [m] ends with a result and a state in [Q]. *)
Definition hoare {A} (P : State -> Prop) (m : M A)
    (Q : result A -> State -> Prop) : Prop :=
  forall st, P st -> Q (fst (m st)) (snd (m st)).

(** A result that the link loop counts as a broken link. *)
Definition broken (entry : Tag * status) : bool :=
  not_in_200_ignore (snd entry).

(** The error flag is up exactly when a broken link has been seen. *)
Definition flag_ok (flag : Z) (seen : list (Tag * status)) : Prop :=
  flag = if existsb broken seen then 1 else 0.

Definition flag_inv (st : State) : Prop := flag_ok (err_code st) (checked st).

(** The error flag is up. *)
Definition flag_up (st : State) : Prop := err_code st = 1.

(** Every stored result is truthy, and the URLs [scrape] was called with are
    pairwise distinct and all stored. *)
Definition cache_ok (cache : gmap string status) (calls : list string)
  : Prop :=
  (forall k v, cache !! k = Some v -> truthy v = true)
  /\ NoDup calls
  /\ (forall k, k ∈ calls -> is_Some (cache !! k)).

Definition cache_inv (st : State) : Prop :=
  cache_ok (scraped_links st) (scrape_calls st).

(** The URLs [scrape] was called with are pairwise distinct. *)
Definition calls_distinct (st : State) : Prop := NoDup (scrape_calls st).

(** The postcondition "in [I] after a return, in [E] after an exception". *)
Definition ends {A} (I E : State -> Prop) (r : result A) (st : State)
  : Prop :=
  match r with
  | Ok _ => I st
  | Raise _ => E st
  end.

(** [href[0] == "#"]. *)
Definition starts_with_hash (href : string) : bool :=
  match href with
  | String c _ => Ascii.eqb c "#"
  | EmptyString => false
  end.

(** The state after a fragment link: as before, but for the note that a
    verbose run prints. *)
Definition skip_note (link : Tag) (st : State) : State :=
  if verbose st then add_stdout (InternalLink link) st else st.

(** An anchor that the link loop skips as an internal link. *)
Definition is_fragment (link : Tag) : bool :=
  match tag_href link with
  | Some href => starts_with_hash href
  | None => false
  end.

(** The state with what was printed forgotten. *)
Definition mute (st : State) : State :=
  {| err_code := err_code st; verbose := verbose st;
     output_err := output_err st;
     scraped_links := scraped_links st; base_url := base_url st;
     stdout := []; errfile := errfile st; requests := requests st;
     scrape_calls := scrape_calls st; checked := checked st |}.

(** [m] does not look at what was printed: from two states that differ
    only there it returns the same and ends in two such states. *)
Definition blind {A} (m : M A) : Prop :=
  forall st1 st2, mute st1 = mute st2 ->
    fst (m st1) = fst (m st2) /\ mute (snd (m st1)) = mute (snd (m st2)).

(** ** A model of [urllib.parse]

    The three library functions above, written out after [urllib/parse.py]
    of CPython 3.11 for ASCII strings, so that the script can be run on
    concrete links.  A bracketed host is validated as [urlsplit] does it,
    through [ipaddress]; the NFKC check of a non-ASCII host does not arise
    for ASCII strings. *)

Module urllib.

Fixpoint find (c : ascii) (s : string) : option nat :=
  match s with
  | EmptyString => None
  | String d s' => if Ascii.eqb d c then Some 0%nat else S <$> find c s'
  end.

Definition contains (c : ascii) (s : string) : bool :=
  match find c s with Some _ => true | None => false end.

Fixpoint take (n : nat) (s : string) : string :=
  match n, s with
  | S n', String c s' => String c (take n' s')
  | _, _ => EmptyString
  end.

Fixpoint drop (n : nat) (s : string) : string :=
  match n, s with
  | S n', String _ s' => drop n' s'
  | _, _ => s
  end.

Fixpoint forallb_str (p : ascii -> bool) (s : string) : bool :=
  match s with
  | EmptyString => true
  | String c s' => p c && forallb_str p s'
  end.

Fixpoint filter_str (p : ascii -> bool) (s : string) : string :=
  match s with
  | EmptyString => EmptyString
  | String c s' => if p c then String c (filter_str p s') else filter_str p s'
  end.

Fixpoint map_str (f : ascii -> ascii) (s : string) : string :=
  match s with
  | EmptyString => EmptyString
  | String c s' => String (f c) (map_str f s')
  end.

Definition between (lo hi : nat) (c : ascii) : bool :=
  let n := nat_of_ascii c in (lo <=? n)%nat && (n <=? hi)%nat.

Definition is_upper : ascii -> bool := between 65 90.
Definition is_lower : ascii -> bool := between 97 122.
Definition is_digit : ascii -> bool := between 48 57.
Definition is_alpha (c : ascii) : bool := is_upper c || is_lower c.

Definition lower_char (c : ascii) : ascii :=
  if is_upper c then ascii_of_nat (nat_of_ascii c + 32) else c.

(** [scheme_chars]: letters, digits and [+-.]. *)
Definition scheme_char (c : ascii) : bool :=
  is_alpha c || is_digit c
  || Ascii.eqb c "+" || Ascii.eqb c "-" || Ascii.eqb c ".".

(** [url.lstrip(_WHATWG_C0_CONTROL_OR_SPACE)]. *)
Fixpoint lstrip_c0 (s : string) : string :=
  match s with
  | String c s' => if between 0 32 c then lstrip_c0 s' else s
  | EmptyString => EmptyString
  end.

(** Removal of [_UNSAFE_URL_BYTES_TO_REMOVE]: tab, carriage return, line
    feed. *)
Definition remove_unsafe (s : string) : string :=
  filter_str (fun c => negb (Ascii.eqb c "009" || Ascii.eqb c "013"
                             || Ascii.eqb c "010")) s.

(** [s.split(c, 1)] when [c] is in [s]; [(s, "")] otherwise. *)
Definition cut (c : ascii) (s : string) : string * string :=
  match find c s with
  | Some i => (take i s, drop (S i) s)
  | None => (s, EmptyString)
  end.

Definition min_opt (a : nat) (b : option nat) : nat :=
  match b with Some n => Nat.min a n | None => a end.

(** [_splitnetloc(url, 2)] on the text after the two slashes. *)
Definition splitnetloc (rest : string) : string * string :=
  let delim := String.length rest in
  let delim := min_opt delim (find "/" rest) in
  let delim := min_opt delim (find "?" rest) in
  let delim := min_opt delim (find "#" rest) in
  (take delim rest, drop delim rest).

(** [ipaddress.IPv4Address._parse_octet]: one to three decimal digits, no
    leading zero, at most 255. *)
Fixpoint decimal_from (acc : N) (s : string) : N :=
  match s with
  | EmptyString => acc
  | String c s' => decimal_from (10 * acc + (N_of_ascii c - 48))%N s'
  end.

Definition valid_octet (s : string) : bool :=
  if negb (String.eqb s "") && forallb_str is_digit s
     && (String.length s <=? 3)%nat
     && negb (negb (String.eqb s "0") && String.eqb (take 1 s) "0")
  then (decimal_from 0 s <=? 255)%N
  else false.

(** [ipaddress.IPv4Address(s)] does not raise. *)
Definition valid_ipv4 (s : string) : bool :=
  negb (contains "/" s)
  && negb (String.eqb s "")
  && (length (py_split "." s) =? 4)%nat
  && forallb valid_octet (py_split "." s).

Definition is_hex (c : ascii) : bool :=
  is_digit c || between 97 102 c || between 65 70 c.

(** [ipaddress.IPv6Address._parse_hextet] does not raise. *)
Definition valid_hextet (s : string) : bool :=
  forallb_str is_hex s && (String.length s <=? 4)%nat
  && negb (String.eqb s "").

(** The positions [1 .. len - 2] of the empty parts. *)
Fixpoint inner_empties (i : nat) (parts : list string) : list nat :=
  match parts with
  | [] | [_] => []
  | p :: rest =>
      if String.eqb p "" then i :: inner_empties (S i) rest
      else inner_empties (S i) rest
  end.

(** [ipaddress.IPv6Address(s)] does not raise. *)
Definition valid_ipv6 (s : string) : bool :=
  let '(addr, scope_ok) :=
    match find "%" s with
    | None => (s, true)
    | Some i =>
        (take i s,
         negb (String.eqb (drop (S i) s) "")
         && negb (contains "%" (drop (S i) s)))
    end in
  negb (contains "/" s) && scope_ok && negb (String.eqb addr "")
  && let parts := py_split ":" addr in
     (3 <=? length parts)%nat
     && let lastp := List.last parts EmptyString in
        (if contains "." lastp then valid_ipv4 lastp else true)
        && let parts :=
             (* the IPv4 suffix becomes two hextets *)
             if contains "." lastp
             then removelast parts ++ ["0"%string; "0"%string]
             else parts in
           let len := length parts in
           (len <=? 9)%nat
           && let first_empty := String.eqb (List.hd EmptyString parts) "" in
              let last_empty :=
                String.eqb (List.last parts EmptyString) "" in
              match inner_empties 1 (List.tl parts) with
              | [skip_index] =>
                  let parts_hi := skip_index in
                  let parts_lo := (len - skip_index - 1)%nat in
                  let parts_hi :=
                    if first_empty then (parts_hi - 1)%nat else parts_hi in
                  let parts_lo :=
                    if last_empty then (parts_lo - 1)%nat else parts_lo in
                  negb (first_empty && negb (parts_hi =? 0)%nat)
                  && negb (last_empty && negb (parts_lo =? 0)%nat)
                  && (parts_hi + parts_lo <=? 7)%nat
                  && forallb valid_hextet (List.firstn parts_hi parts)
                  && forallb valid_hextet
                       (List.skipn (len - parts_lo) parts)
              | [] =>
                  (len =? 8)%nat && negb first_empty && negb last_empty
                  && forallb valid_hextet parts
              | _ => false
              end.

(** The leading characters of [s] that satisfy [p], and the rest. *)
Fixpoint span (p : ascii -> bool) (s : string) : string * string :=
  match s with
  | String c s' =>
      if p c then let '(a, b) := span p s' in (String c a, b)
      else (EmptyString, s)
  | EmptyString => (EmptyString, EmptyString)
  end.

(** [re.match(r"\Av[a-fA-F0-9]+\..+\Z", hostname)]. *)
Definition valid_ipvfuture (hostname : string) : bool :=
  match hostname with
  | String "v" rest =>
      let '(digits, after) := span is_hex rest in
      negb (String.eqb digits "")
      && match after with
         | String "." more =>
             negb (String.eqb more "")
             && forallb_str (fun c => negb (Ascii.eqb c "010")) more
         | _ => false
         end
  | _ => false
  end.

(** [_check_bracketed_host] does not raise. *)
Definition valid_bracketed_host (hostname : string) : bool :=
  if String.eqb (take 1 hostname) "v" then valid_ipvfuture hostname
  else valid_ipv6 hostname.

(** [_check_bracketed_netloc] does not raise. *)
Definition valid_bracketed_netloc (net : string) : bool :=
  let hostname_and_port := List.last (py_split "@" net) EmptyString in
  match find "[" hostname_and_port with
  | Some i =>
      let before_bracket := take i hostname_and_port in
      let bracketed := drop (S i) hostname_and_port in
      let '(hostname, port) := cut "]" bracketed in
      String.eqb before_bracket ""
      && negb (negb (String.eqb port "")
               && negb (String.eqb (take 1 port) ":"))
      && valid_bracketed_host hostname
  | None =>
      valid_bracketed_host (fst (cut ":" hostname_and_port))
  end.

(** [urlsplit(url, scheme)]. *)
Definition urlsplit_with (default : string) (url : string)
  : result SplitResult :=
  let url := remove_unsafe (lstrip_c0 url) in
  let '(sch, url) :=
    match find ":" url, url with
    | Some (S i), String c0 _ =>
        if is_alpha c0 && forallb_str scheme_char (take (S i) url)
        then (map_str lower_char (take (S i) url), drop (S (S i)) url)
        else (default, url)
    | _, _ => (default, url)
    end in
  try! located :=
    (if String.eqb (take 2 url) "//" then
       let '(net, rest) := splitnetloc (drop 2 url) in
       if xorb (contains "[" net) (contains "]" net)
       then Raise ValueError
       else if contains "[" net && contains "]" net
       then if valid_bracketed_netloc net
            then Ok (net, rest) else Raise ValueError
       else Ok (net, rest)
     else Ok (EmptyString, url)) in
  let '(net, url) := located in
  let '(url, frag) := cut "#" url in
  let '(url, qry) := cut "?" url in
  Ok {| scheme := sch; netloc := net; path := url;
        query := qry; fragment := frag |}.

Definition urlsplit : string -> result SplitResult := urlsplit_with "".

Definition mem (s : string) (l : list string) : bool :=
  existsb (String.eqb s) l.

Definition uses_netloc : list string :=
  [""; "ftp"; "http"; "gopher"; "nntp"; "telnet"; "imap"; "wais"; "file";
   "mms"; "https"; "shttp"; "snews"; "prospero"; "rtsp"; "rtspu"; "rsync";
   "svn"; "svn+ssh"; "sftp"; "nfs"; "git"; "git+ssh"; "ws"; "wss"].

Definition uses_relative : list string :=
  [""; "ftp"; "http"; "gopher"; "nntp"; "imap"; "wais"; "file"; "https";
   "shttp"; "mms"; "prospero"; "rtsp"; "rtspu"; "sftp"; "svn"; "svn+ssh";
   "ws"; "wss"].

Definition uses_params : list string :=
  [""; "ftp"; "hdl"; "prospero"; "http"; "imap"; "https"; "shttp"; "rtsp";
   "rtspu"; "sip"; "sips"; "mms"; "sftp"; "tel"].

Definition nonempty (s : string) : bool := negb (String.eqb s "").

(** [urlunsplit], which is what [geturl] calls. *)
Definition geturl (u : SplitResult) : string :=
  let url := path u in
  let url :=
    if nonempty (netloc u)
       || (nonempty (scheme u) && mem (scheme u) uses_netloc
           && negb (String.eqb (take 2 url) "//"))
    then
      let url :=
        if nonempty url && negb (String.eqb (take 1 url) "/")
        then "/" +:+ url else url in
      "//" +:+ netloc u +:+ url
    else url in
  let url := if nonempty (scheme u) then scheme u +:+ ":" +:+ url else url in
  let url := if nonempty (query u) then url +:+ "?" +:+ query u else url in
  if nonempty (fragment u) then url +:+ "#" +:+ fragment u else url.

Fixpoint rfind (c : ascii) (s : string) : option nat :=
  match s with
  | EmptyString => None
  | String d s' =>
      match rfind c s' with
      | Some i => Some (S i)
      | None => if Ascii.eqb d c then Some 0%nat else None
      end
  end.

(** [s.find(c, start)]. *)
Definition find_from (c : ascii) (start : nat) (s : string) : option nat :=
  (fun i => (start + i)%nat) <$> find c (drop start s).

(** [_splitparams]. *)
Definition splitparams (url : string) : string * string :=
  match rfind "/" url with
  | Some r =>
      match find_from ";" r url with
      | Some i => (take i url, drop (S i) url)
      | None => (url, EmptyString)
      end
  | None =>
      match find ";" url with
      | Some i => (take i url, drop (S i) url)
      | None => (take (String.length url - 1) url, url)
      end
  end.

Definition replace_path (p : string) (u : SplitResult) : SplitResult :=
  {| scheme := scheme u; netloc := netloc u; path := p;
     query := query u; fragment := fragment u |}.

(** [urlparse(url, scheme)]: the split and the [;params] of the path. *)
Definition urlparse_with (default : string) (url : string)
  : result (SplitResult * string) :=
  try! u := urlsplit_with default url in
  if mem (scheme u) uses_params && contains ";" (path u)
  then let '(p, params) := splitparams (path u) in Ok (replace_path p u, params)
  else Ok (u, EmptyString).

Definition urlunparse (u : SplitResult) (params : string) : string :=
  let url :=
    if nonempty params then path u +:+ ";" +:+ params else path u in
  geturl (replace_path url u).

(** [sep.join(l)]. *)
Fixpoint join (sep : string) (l : list string) : string :=
  match l with
  | [] => EmptyString
  | [x] => x
  | x :: tl => x +:+ sep +:+ join sep tl
  end.

(** [segments[1:-1] = filter(None, segments[1:-1])]. *)
Definition squeeze (segments : list string) : list string :=
  match segments with
  | [] => []
  | x :: tl =>
      match List.rev tl with
      | [] => [x]
      | lastp :: mid => x :: List.filter nonempty (List.rev mid) ++ [lastp]
      end
  end.

(** One turn of the loop that removes dot segments. *)
Definition resolve_step (resolved_path : list string) (seg : string)
  : list string :=
  if String.eqb seg ".." then removelast resolved_path
  else if String.eqb seg "." then resolved_path
  else resolved_path ++ [seg].

Definition urljoin (base url : string) : result string :=
  if negb (nonempty base) then Ok url
  else if negb (nonempty url) then Ok base
  else
    try! bp := urlparse_with "" base in
    let '(b, bparams) := bp in
    try! up := urlparse_with (scheme b) url in
    let '(u, params) := up in
    if negb (String.eqb (scheme u) (scheme b))
       || negb (mem (scheme u) uses_relative)
    then Ok url
    else if mem (scheme u) uses_netloc && nonempty (netloc u)
    then Ok (urlunparse u params)
    else
      let net := if mem (scheme u) uses_netloc then netloc b else netloc u in
      if negb (nonempty (path u)) && negb (nonempty params) then
        let qry := if nonempty (query u) then query u else query b in
        Ok (urlunparse {| scheme := scheme u; netloc := net; path := path b;
                          query := qry; fragment := fragment u |} bparams)
      else
        let base_parts := py_split "/" (path b) in
        let base_parts :=
          match List.rev base_parts with
          | lastp :: _ =>
              if nonempty lastp then removelast base_parts else base_parts
          | [] => base_parts
          end in
        let segments :=
          if String.eqb (take 1 (path u)) "/" then py_split "/" (path u)
          else squeeze (base_parts ++ py_split "/" (path u)) in
        let resolved_path := fold_left resolve_step segments [] in
        let resolved_path :=
          match List.rev segments with
          | lastp :: _ =>
              if String.eqb lastp "." || String.eqb lastp ".."
              then resolved_path ++ [EmptyString] else resolved_path
          | [] => resolved_path
          end in
        let joined := join "/" resolved_path in
        Ok (urlunparse
              {| scheme := scheme u; netloc := net;
                 path := if nonempty joined then joined else "/";
                 query := query u; fragment := fragment u |} params).

End urllib.

(** ** A test bench

    The script over the model of [urllib.parse], a network that answers
    every request alike, and a page with a fixed list of anchors. *)

Module Bench.

Definition serves (status_code : Z) : list string -> string -> reply :=
  fun _ _ => Response status_code "<html>".

Definition anchors (links : list Tag) : string -> list Tag := fun _ => links.

Definition a (href : string) : Tag :=
  {| tag_href := Some href; tag_markup := "<a href=..>" |}.

Definition check_existing (status_code : Z) : Tag -> string -> M status :=
  check_existing urllib.urlsplit urllib.geturl urllib.urljoin
    (serves status_code).

Definition scrape (status_code : Z) : string -> M status :=
  scrape urllib.urlsplit urllib.geturl (serves status_code).

Definition link_body (status_code : Z) : string -> Tag -> nat -> M nat :=
  link_body urllib.urlsplit urllib.geturl urllib.urljoin (serves status_code).

Definition main (status_code : Z) (links : list Tag) : list string -> M Z :=
  main urllib.urlsplit urllib.geturl urllib.urljoin (serves status_code)
    (anchors links).

(** The state in the middle of the document [by_4.0.html]. *)
Definition in_by_4 : State :=
  set_base_url "https://creativecommons.org/licenses/by/4.0/legalcode"
    (initial false false).

End Bench.

(** ** Terms for the further properties *)

(** The part of the path that [create_base_link] derives from the first
    part of the filename. *)
Definition section_of (part0 : string) : string :=
  if String.eqb part0 "samplingplus" then "/licenses/sampling+"
  else if String.prefix "zero" part0 then "/publicdomain/" +:+ part0
  else "/licenses/" +:+ part0.

(** What [create_base_link] puts after the second part, given the first part
    and the parts after the second. *)
Definition tail_of (part0 : string) (rest : list string) : string :=
  match rest with
  | [] => "/legalcode"
  | [part2] =>
      if String.eqb part0 "samplingplus"
      then "/" +:+ part2 +:+ "/legalcode"
      else "/legalcode." +:+ part2
  | [part2; part3] => "/" +:+ part2 +:+ "/legalcode." +:+ part3
  | _ => "/legalcode." +:+ List.last rest EmptyString
  end.

(** The requests made so far begin with [l]. *)
Definition requests_from (l : list string) (st : State) : Prop :=
  l `prefix_of` requests st.

(** The module global [base_url] is bound to [b]. *)
Definition base_url_is (b : string) (st : State) : Prop :=
  base_url st = Some b.

(** The state in which the document loop asks for the page of a document:
    the two heading lines and the URL line are printed and the global
    [base_url] is assigned. *)
Definition at_fetch (name b : string) (st : State) : State :=
  add_stdout (Url b)
    (set_base_url b (add_stdout (NowChecking name) (add_stdout Blank st))).

(** The state in which the link loop of a document starts. *)
Definition at_links (name b : string) (n : nat) (st : State) : State :=
  let st2 := add_request (base +:+ name) (at_fetch name b st) in
  if verbose st
  then add_stdout ErrorsAndWarnings (add_stdout (LinksFound n) st2)
  else st2.

(** An anchor that the link loop does not skip: it has an [href], and the
    [href] does not begin with [#]. *)
Definition not_skipped (link : Tag) : bool :=
  match tag_href link with
  | Some href => negb (starts_with_hash href)
  | None => false
  end.

(** A value that [scrape] can return: a status code or one of its three
    messages. *)
Definition is_check_result (v : status) : Prop :=
  match v with
  | StatusCode _ => True
  | StatusStr s =>
      s = "Timeout Error" \/ s = "ignore" \/ s = "Invalid protocol detected"
  end.

(** Every stored value is one that [scrape] can return. *)
Definition results_ok (cache : gmap string status) (calls : list string)
  : Prop :=
  forall k v, cache !! k = Some v -> is_check_result v.

(** The cache invariant, and nothing is stored but under a URL that
    [scrape] was called with. *)
Definition cache_exact (cache : gmap string status) (calls : list string)
  : Prop :=
  cache_ok cache calls /\ (forall k, is_Some (cache !! k) -> k ∈ calls).

(** An assertion about the cache and the calls of [scrape], as an assertion
    about the state. *)
Definition over_cache (P : gmap string status -> list string -> Prop)
    (st : State) : Prop :=
  P (scraped_links st) (scrape_calls st).

(** The line [print(status, "-\t", link)]. *)
Definition is_broken_line (e : event) : bool :=
  match e with
  | Broken _ _ => true
  | _ => false
  end.

(** The broken-link lines printed so far, and those written to the error
    file. *)
Definition broken_lines (st : State) : list event :=
  List.filter is_broken_line (stdout st).

Definition broken_lines_file (st : State) : list event :=
  List.filter is_broken_line (errfile st).

(** The line that reports a recorded result. *)
Definition line_of (entry : Tag * status) : event :=
  Broken (snd entry) (fst entry).

(** The broken-link lines on stdout are the broken results, in order. *)
Definition reports_ok (lines : list event) (seen : list (Tag * status))
  : Prop :=
  lines = List.map line_of (List.filter broken seen).

(** With [--output-error] the error file has the broken-link lines of
    stdout; without it the file is not written. *)
Definition file_ok (file : bool * list event) (lines : list event) : Prop :=
  if fst file then List.filter is_broken_line (snd file) = lines
  else snd file = [].

(** The flag [output_err] and the content of the error file. *)
Definition file_of (st : State) : bool * list event :=
  (output_err st, errfile st).

(** The exceptions that the script's own code lets through from its
    guards and from the libraries: an index out of range, a malformed URL,
    a failed request. *)
Definition expected_exn (e : exn) : Prop :=
  e = IndexError \/ e = ValueError \/ e = RequestException.

(** [r] is a return, or an exception in [ok]. *)
Definition raises_only {A} (ok : exn -> Prop) (r : result A) : Prop :=
  match r with
  | Ok _ => True
  | Raise e => ok e
  end.

(** The requests made beyond one per call of [scrape]. *)
Definition excess (st : State) : Z :=
  Z.of_nat (length (requests st)) - Z.of_nat (length (scrape_calls st)).

(** An assertion about the requests and the calls of [scrape]. *)
Definition excess_le (n : Z) (reqs calls : list string) : Prop :=
  Z.of_nat (length reqs) - Z.of_nat (length calls) <= n.

(** The document loop on the test bench. *)
Definition bench_license_body (status_code : Z) (links : list Tag)
  : string -> unit -> M unit :=
  license_body urllib.urlsplit urllib.geturl urllib.urljoin
    (Bench.serves status_code) (Bench.anchors links).

(** The lines that only [verbose_print] prints. *)
Definition is_note (e : event) : bool :=
  match e with
  | SkipNonHtml _ | LinksFound _ | ErrorsAndWarnings | NoHref _
  | InternalLink _ => true
  | _ => false
  end.

(** The line [print("Errors:")]. *)
Definition is_errors_header (e : event) : bool :=
  match e with
  | ErrorsHeader => true
  | _ => false
  end.

(** The notes and the ["Errors:"] headers printed so far. *)
Definition noise (st : State) : list event * list event :=
  (List.filter is_note (stdout st),
   List.filter is_errors_header (stdout st)).

(** A verbose run prints no ["Errors:"] header, and a run that is not
    verbose prints no note. *)
Definition verbosity_ok (v : bool) (x : list event * list event) : Prop :=
  if v then snd x = [] else fst x = [].

(** ** The whole module

    The statements at module level, in the order in which they run: the
    listing is fetched by [get_all_license], every entry goes through the
    document loop, and the script ends in [sys.exit].  [main] above is this
    run from the point where the listing is known and every entry has a
    name. *)

Module toplevel.

Section Module_.

Variable urlsplit : string -> result SplitResult.
Variable geturl : SplitResult -> string.
Variable urljoin : string -> string -> result string.
Variable requests_get : list string -> string -> reply.
Variable find_all_a : string -> list Tag.

(** The parse of the listing page followed by
    [soup.table.tbody.find_all("a", class_="js-navigation-open")]: [None]
    when the page has no [table] or the table no [tbody], else [.string] of
    every anchor found, which is [None] for an anchor that does not hold
    exactly one string. *)
Variable find_listing : string -> option (list (option string)).

Definition listing_url : string :=
  "https://github.com/creativecommons/creativecommons.org/tree/master/docroot/legalcode".

Definition get_all_license : M (list (option string)) :=
  let url := listing_url in
  let! response := http_get requests_get url in
  match response with
  | Response _ text =>
      match find_listing text with
      | Some links =>
          print (FilesToCheck (length links)) ;;
          ret links
      | None => raise AttributeError
      end
  | TimedOut | Failure => raise RequestException
  end.

(** The body of [for licens in all_links], given the entry: its first use of
    [licens.string] is [licens.string.split(".")]. *)
Definition document_body (licens : option string) (u : unit) : M unit :=
  match licens with
  | Some licens_string =>
      license_body urlsplit geturl urljoin requests_get find_all_a
        licens_string u
  | None => raise AttributeError
  end.

(** The module from [all_links = get_all_license()] to [sys.exit]; the value
    is the argument of [sys.exit]. *)
Definition script : M Z :=
  let! all_links := get_all_license in
  for_each document_body all_links tt ;;
  let! o := gets output_err in
  when o (print ErrorFilePresent) ;;
  gets err_code.

(** The entries that a run started after the requests [earlier] gets from
    the listing; none if the listing cannot be had. *)
Definition listing (earlier : list string) : list (option string) :=
  match requests_get earlier listing_url with
  | Response _ text =>
      match find_listing text with
      | Some links => links
      | None => []
      end
  | _ => []
  end.

End Module_.

End toplevel.

(** The exit status of the process: the argument of [sys.exit], or 1 when
    an exception reaches the top level. *)
Definition exit_status (r : result Z) : Z :=
  match r with
  | Ok code => code
  | Raise _ => 1
  end.

(** The whole script on the test bench: a listing with the given names, and
    a network that is given as such. *)
Definition bench_listing (names : list string)
  : string -> option (list (option string)) :=
  fun _ => Some (List.map Some names).

Definition bench_script (net : list string -> string -> reply)
    (links : list Tag) (names : list string) : M Z :=
  toplevel.script urllib.urlsplit urllib.geturl urllib.urljoin net
    (Bench.anchors links) (bench_listing names).

(** A network that serves the listing and then fails. *)
Definition listing_only : list string -> string -> reply :=
  fun earlier _ =>
    match earlier with
    | [] => Response 200 "<html>"
    | _ => Failure
    end.

(* ===================================================================== *)
(** * Part II: properties                                                 *)
(* ===================================================================== *)

(** ** Base-URL derivation *)

Lemma py_split_nonempty sep s : py_split sep s <> [].
Proof.
  destruct s as [|c s]; simpl; [discriminate|].
  destruct (Ascii.eqb c sep); [discriminate|].
  destruct (py_split sep s); discriminate.
Qed.

(** One part more than there are separators. *)
Lemma py_split_length sep s :
  length (py_split sep s)
  = S (length (List.filter (Ascii.eqb sep) (list_ascii_of_string s))).
Proof.
  induction s as [|c s IH]; simpl; [reflexivity|].
  rewrite (Ascii.eqb_sym sep c).
  destruct (Ascii.eqb c sep); simpl.
  - now rewrite IH.
  - pose proof (py_split_nonempty sep s) as Hne.
    destruct (py_split sep s); [contradiction|]. exact IH.
Qed.

Lemma py_split_no_sep sep s :
  ~ In sep (list_ascii_of_string s) -> py_split sep s = [s].
Proof.
  induction s as [|c s IH]; simpl; intros Hn; [reflexivity|].
  destruct (Ascii.eqb_spec c sep) as [->|Hc]; [tauto|].
  rewrite IH; tauto.
Qed.

Lemma index_last_nonempty {A} (xs : list A) :
  xs <> [] -> exists x, index_last xs = Ok x.
Proof.
  intros Hne. unfold index_last.
  destruct (List.rev xs) as [|x tl] eqn:E; [|eauto].
  apply (f_equal (@List.rev A)) in E. rewrite List.rev_involutive in E.
  contradiction.
Qed.

(** C3: the golden cases of the base-URL derivation. *)
Theorem create_base_link_golden :
  create_base_link "by_4.0"
    = Ok "https://creativecommons.org/licenses/by/4.0/legalcode"
  /\ create_base_link "by-sa_4.0_fr"
    = Ok "https://creativecommons.org/licenses/by-sa/4.0/legalcode.fr"
  /\ py_split "_" "samplingplus_1.0_us" = ["samplingplus"; "1.0"; "us"]
  /\ create_base_link "samplingplus_1.0_us"
    = Ok "https://creativecommons.org/licenses/sampling+/1.0/us/legalcode"
  /\ create_base_link "zero_1.0"
    = Ok "https://creativecommons.org/publicdomain/zero/1.0/legalcode".
Proof. repeat split; vm_compute; reflexivity. Qed.

(** C10: [create_base_link] returns a URL exactly for the filenames that
    split into at least two parts; a filename without an underscore is a
    single part and the lookup of [parts[1]] raises [IndexError]. *)
Theorem create_base_link_needs_two_parts (filename : string) :
  ((exists url, create_base_link filename = Ok url)
     <-> (2 <= length (py_split "_" filename))%nat)
  /\ (~ In "_"%char (list_ascii_of_string filename) ->
      py_split "_" filename = [filename]
      /\ index (py_split "_" filename) 1 = Raise IndexError
      /\ create_base_link filename = Raise IndexError).
Proof.
  split.
  - unfold create_base_link.
    pose proof (py_split_nonempty "_" filename) as Hne.
    destruct (index_last_nonempty _ Hne) as [lastp Hlast].
    rewrite Hlast.
    destruct (py_split "_" filename) as [|p0 [|p1 [|p2 rest]]] eqn:E;
      [contradiction| | |].
    + simpl. split; [intros [url Hu]; discriminate | lia].
    + simpl. split; [intros _; lia|intros _].
      rewrite andb_false_r. simpl. eauto.
    + split; [intros _; simpl; lia|intros _]. simpl.
      destruct ((p0 =? "samplingplus")%string && (length rest =? 0)%nat);
        simpl; [eauto|].
      destruct (length rest =? 1)%nat; simpl; eauto.
  - intros Hn. rewrite (py_split_no_sep _ _ Hn).
    unfold create_base_link. rewrite (py_split_no_sep _ _ Hn).
    repeat split.
Qed.

Lemma create_base_link_needs_two_parts_witness :
  create_base_link "by" = Raise IndexError.
Proof.
  apply (create_base_link_needs_two_parts "by").
  simpl. intros [H|[H|[]]]; discriminate.
Defined.

(** ** More on the base-URL derivation *)

Lemma append_assoc (s1 s2 s3 : string) :
  (s1 +:+ s2) +:+ s3 = s1 +:+ s2 +:+ s3.
Proof.
  induction s1 as [|c s1 IH]; [reflexivity|].
  change (String c ((s1 +:+ s2) +:+ s3) = String c (s1 +:+ s2 +:+ s3)).
  now f_equal.
Qed.

Lemma index_last_app {A} (xs : list A) (x : A) :
  index_last (xs ++ [x]) = Ok x.
Proof. unfold index_last. now rewrite List.rev_app_distr. Qed.

Lemma index_last_last (xs : list string) :
  xs <> [] -> index_last xs = Ok (List.last xs EmptyString).
Proof.
  intros Hne. destruct (exists_last Hne) as (front & x & ->).
  now rewrite index_last_app, List.last_last.
Qed.

(** X1: the URL that [create_base_link] returns, in closed form.  With two
    parts it is [<section>/<part1>/legalcode]; a third part is a
    jurisdiction directory for [samplingplus] and a language suffix
    otherwise; with four parts the third is a directory and the fourth the
    suffix; with five or more only the last part is used, as the suffix,
    and the parts between the second and the last are dropped. *)
Theorem create_base_link_shape
    (filename part0 part1 : string) (rest : list string) :
  py_split "_" filename = part0 :: part1 :: rest ->
  create_base_link filename
  = Ok ("https://creativecommons.org" +:+ section_of part0 +:+ "/" +:+ part1
        +:+ tail_of part0 rest).
Proof.
  intros Hparts. unfold create_base_link. rewrite Hparts.
  change (index (part0 :: part1 :: rest) 0) with (Ok part0).
  change (index (part0 :: part1 :: rest) 1) with (Ok part1).
  cbn [bindR]. unfold section_of.
  destruct rest as [|part2 [|part3 [|part4 rest]]];
    [| | |rewrite index_last_last by discriminate].
  all: cbn -[String.append List.last]; rewrite ?andb_false_r.
  all: destruct (String.eqb part0 "samplingplus"),
         (String.prefix "zero" part0).
  all: cbn -[String.append List.last]; rewrite ?append_assoc; reflexivity.
Qed.

Lemma create_base_link_shape_witness :
  create_base_link "by-nc_3.0_igo_pt_br"
  = Ok "https://creativecommons.org/licenses/by-nc/3.0/legalcode.br".
Proof.
  apply (create_base_link_shape "by-nc_3.0_igo_pt_br" "by-nc" "3.0"
           ["igo"; "pt"; "br"]).
  reflexivity.
Defined.

(** ** The test of [create_absolute_link] *)

Lemma is_relative_true a :
  is_relative a = true
  <-> scheme a = "" /\ netloc a = "" /\ path a <> "".
Proof.
  unfold is_relative.
  rewrite !andb_true_iff, negb_true_iff, !String.eqb_eq, String.eqb_neq.
  tauto.
Qed.

Lemma is_relative_false a :
  is_relative a = false
  <-> scheme a <> "" \/ netloc a <> "" \/ path a = "".
Proof.
  unfold is_relative.
  rewrite !andb_false_iff, negb_false_iff, !String.eqb_neq, String.eqb_eq.
  tauto.
Qed.

(** ** The script over an arbitrary library *)

Section ScriptProperties.

Set Default Proof Using "Type".

Variable urlsplit : string -> result SplitResult.
Variable geturl : SplitResult -> string.
Variable urljoin : string -> string -> result string.
Variable requests_get : list string -> string -> reply.
Variable find_all_a : string -> list Tag.

Local Abbreviation create_absolute_link := (create_absolute_link urljoin).
Local Abbreviation request_url := (request_url geturl).
Local Abbreviation get_status := (get_status requests_get).
Local Abbreviation scrape := (scrape urlsplit geturl requests_get).
Local Abbreviation check_existing :=
  (check_existing urlsplit geturl urljoin requests_get).
Local Abbreviation link_body := (link_body urlsplit geturl urljoin requests_get).
Local Abbreviation license_body :=
  (license_body urlsplit geturl urljoin requests_get find_all_a).
Local Abbreviation main := (main urlsplit geturl urljoin requests_get find_all_a).

Ltac unfold_m :=
  unfold verbose_print, output_write, print, read_base_url, http_get,
    get_href, when, bind, ret, raise, lift, gets, modify in *.

(** *** URL resolution *)

Lemma create_absolute_link_relative a href st :
  is_relative a = true ->
  create_absolute_link a href st
  = (match base_url st with
     | Some b => urljoin b href
     | None => Raise NameError
     end, st).
Proof.
  unfold is_relative, link_checker.create_absolute_link. intros ->.
  unfold_m. destruct (base_url st); reflexivity.
Qed.

Lemma create_absolute_link_absolute a href st :
  is_relative a = false -> create_absolute_link a href st = (Ok href, st).
Proof.
  unfold is_relative, link_checker.create_absolute_link. intros ->. reflexivity.
Qed.

(** [create_absolute_link] never changes the state. *)
Lemma create_absolute_link_state a href st :
  snd (create_absolute_link a href st) = st.
Proof.
  destruct (is_relative a) eqn:E.
  - now rewrite create_absolute_link_relative.
  - now rewrite create_absolute_link_absolute.
Qed.

(** C5: a href with empty scheme, empty host and non-empty path is joined
    onto the base URL (the module global) with [urljoin]; every other href
    comes back unchanged.  Neither case touches the state. *)
Theorem create_absolute_link_spec
    (link_analysis : SplitResult) (href b : string) (st : State) :
  base_url st = Some b ->
  (scheme link_analysis = "" /\ netloc link_analysis = ""
   /\ path link_analysis <> "" ->
   create_absolute_link link_analysis href st = (urljoin b href, st))
  /\ (scheme link_analysis <> "" \/ netloc link_analysis <> ""
      \/ path link_analysis = "" ->
      create_absolute_link link_analysis href st = (Ok href, st)).
Proof.
  intros Hb. split; intros H.
  - apply is_relative_true in H.
    rewrite create_absolute_link_relative by exact H. now rewrite Hb.
  - apply is_relative_false in H.
    now apply create_absolute_link_absolute.
Qed.

(** C8: [check_existing] does not depend on its [base_url] argument: the
    resolution reads the module global of that name, not the parameter. *)
Theorem check_existing_ignores_argument
    (link : Tag) (base_url1 base_url2 : string) (st : State) :
  check_existing link base_url1 st = check_existing link base_url2 st.
Proof. reflexivity. Qed.

(** *** The status checker *)

Lemma get_status_spec href st :
  get_status href st
  = (status_of_reply (requests_get (requests st) href), add_request href st).
Proof.
  unfold link_checker.get_status. unfold_m. simpl.
  destruct (requests_get (requests st) href); reflexivity.
Qed.

Lemma scrape_web href analyse st :
  urlsplit href = Ok analyse ->
  scheme analyse = "" \/ scheme analyse = "https" \/ scheme analyse = "http" ->
  scrape href st
  = (status_of_reply (requests_get (requests st) (request_url analyse)),
     add_request (request_url analyse) (add_scrape_call href st)).
Proof.
  intros Hs Hc. unfold link_checker.scrape.
  unfold bind at 1. unfold modify at 1. unfold bind at 1. unfold lift at 1.
  rewrite Hs.
  replace ((scheme analyse =? "")%string || (scheme analyse =? "https")%string
           || (scheme analyse =? "http")%string) with true.
  2:{ symmetry. rewrite !orb_true_iff, !String.eqb_eq.
      destruct Hc as [H|[H|H]]; [left; left|left; right|right]; exact H. }
  unfold bind. rewrite get_status_spec. fold (request_url analyse). simpl.
  destruct (status_of_reply _); reflexivity.
Qed.

Lemma scrape_mailto href analyse st :
  urlsplit href = Ok analyse ->
  scheme analyse = "mailto" ->
  scrape href st = (Ok (StatusStr "ignore"), add_scrape_call href st).
Proof.
  intros Hs Hc. unfold link_checker.scrape. unfold_m. rewrite Hs, Hc.
  reflexivity.
Qed.

Lemma scrape_other href analyse st :
  urlsplit href = Ok analyse ->
  scheme analyse <> "" -> scheme analyse <> "https" ->
  scheme analyse <> "http" -> scheme analyse <> "mailto" ->
  scrape href st
  = (Ok (StatusStr "Invalid protocol detected"), add_scrape_call href st).
Proof.
  intros Hs H1 H2 H3 H4. unfold link_checker.scrape. unfold_m. rewrite Hs.
  apply String.eqb_neq in H1, H2, H3, H4. now rewrite H1, H2, H3, H4.
Qed.

Lemma scrape_raises href e st :
  urlsplit href = Raise e ->
  scrape href st = (Raise e, add_scrape_call href st).
Proof. intros Hs. unfold link_checker.scrape. unfold_m. now rewrite Hs. Qed.

(** C4: [scrape] classifies a URL by its scheme.  An empty scheme is replaced
    by [https]; for [http] and [https] (and the replaced empty scheme) one
    GET is issued and the result is the status code of the response, or
    ["Timeout Error"] on a timeout; [mailto] gives ["ignore"] and any other
    scheme ["Invalid protocol detected"], both without a request. *)
Theorem scrape_classifies (href : string) (analyse : SplitResult) (st : State) :
  urlsplit href = Ok analyse ->
  let url := request_url analyse in
  let answer := requests_get (requests st) url in
  let '(res, st') := scrape href st in
  (scheme analyse = "" -> url = geturl (replace_scheme "https" analyse))
  /\ (scheme analyse = "https" \/ scheme analyse = "http" ->
      url = geturl analyse)
  /\ (scheme analyse = "" \/ scheme analyse = "https"
      \/ scheme analyse = "http" ->
      requests st' = requests st ++ [url]
      /\ (forall c body, answer = Response c body -> res = Ok (StatusCode c))
      /\ (answer = TimedOut -> res = Ok (StatusStr "Timeout Error")))
  /\ (scheme analyse = "mailto" ->
      res = Ok (StatusStr "ignore") /\ requests st' = requests st)
  /\ (scheme analyse <> "" -> scheme analyse <> "https" ->
      scheme analyse <> "http" -> scheme analyse <> "mailto" ->
      res = Ok (StatusStr "Invalid protocol detected")
      /\ requests st' = requests st).
Proof.
  intros Hs url answer.
  destruct (scrape href st) as [res st'] eqn:E.
  split; [|split; [|split; [|split]]].
  - intros H0. unfold url, request_url. now rewrite H0.
  - intros [H0|H0]; unfold url, request_url; now rewrite H0.
  - intros Hc. rewrite (scrape_web _ _ _ Hs Hc) in E.
    injection E as <- <-. fold url. fold answer.
    split; [reflexivity|]. split.
    + intros c body ->. reflexivity.
    + intros ->. reflexivity.
  - intros Hc. rewrite (scrape_mailto _ _ _ Hs Hc) in E.
    injection E as <- <-. split; reflexivity.
  - intros H1 H2 H3 H4. rewrite (scrape_other _ _ _ Hs H1 H2 H3 H4) in E.
    injection E as <- <-. split; reflexivity.
Qed.

(** *** Reasoning rules *)

Lemma keeps_ret {X A} (f : State -> X) (a : A) : keeps f (ret a).
Proof. intros st. reflexivity. Qed.

Lemma keeps_raise {X A} (f : State -> X) e : keeps f (@raise A e).
Proof. intros st. reflexivity. Qed.

Lemma keeps_lift {X A} (f : State -> X) (r : result A) : keeps f (lift r).
Proof. intros st. reflexivity. Qed.

Lemma keeps_gets {X A} (f : State -> X) (g : State -> A) : keeps f (gets g).
Proof. intros st. reflexivity. Qed.

Lemma keeps_modify {X} (f : State -> X) (g : State -> State) :
  (forall st, f (g st) = f st) -> keeps f (modify g).
Proof. intros H st. apply H. Qed.

Lemma keeps_bind {X A B} (f : State -> X) (m : M A) (k : A -> M B) :
  keeps f m -> (forall a, keeps f (k a)) -> keeps f (bind m k).
Proof.
  intros Hm Hk st. unfold bind. specialize (Hm st).
  destruct (m st) as [[a|e] st1]; simpl in *.
  - now rewrite Hk.
  - exact Hm.
Qed.

Lemma keeps_when {X} (f : State -> X) (b : bool) (m : M unit) :
  keeps f m -> keeps f (when b m).
Proof. intros H. destruct b; [exact H | apply keeps_ret]. Qed.

Lemma keeps_for_each {X A L} (f : State -> X) (body : A -> L -> M L) xs acc :
  (forall x a, keeps f (body x a)) -> keeps f (for_each body xs acc).
Proof.
  intros H. revert acc.
  induction xs as [|x xs IH]; intros acc; simpl.
  - apply keeps_ret.
  - apply keeps_bind; [apply H | intros a; apply IH].
Qed.

(** Breaks a computation into its primitives; what is left are the
    [modify] side conditions and the calls the caller must account for. *)
Ltac keeps_step :=
  first
    [ apply keeps_ret | apply keeps_raise | apply keeps_lift
    | apply keeps_gets
    | match goal with
      | |- keeps _ (bind _ _) => apply keeps_bind; [|intros ?]
      | |- keeps _ (when _ _) => apply keeps_when
      end
    | apply keeps_modify; intros ?; first [reflexivity | solve [auto]]
    | match goal with
      | |- keeps _ (if ?b then _ else _) => destruct b
      | |- keeps _ (match ?x with _ => _ end) => destruct x
      end ].

Ltac keeps_auto :=
  unfold verbose_print, output_write, print, read_base_url, get_href,
    link_checker.http_get;
  repeat keeps_step.

Lemma hoare_conseq {A} (P P' : State -> Prop) (m : M A)
    (Q Q' : result A -> State -> Prop) :
  hoare P' m Q' -> (forall st, P st -> P' st) ->
  (forall r st, Q' r st -> Q r st) -> hoare P m Q.
Proof. intros H HP HQ st Hst. apply HQ, H, HP, Hst. Qed.

Lemma hoare_bind {A B} (P : State -> Prop) (m : M A) (k : A -> M B)
    (Q1 : result A -> State -> Prop) (Q : result B -> State -> Prop) :
  hoare P m Q1 ->
  (forall a, hoare (Q1 (Ok a)) (k a) Q) ->
  (forall e st, Q1 (Raise e) st -> Q (Raise e) st) ->
  hoare P (bind m k) Q.
Proof.
  intros Hm Hk He st Hst. unfold bind. specialize (Hm st Hst).
  destruct (m st) as [[a|e] st1]; simpl in *.
  - now apply Hk.
  - now apply He.
Qed.

(** A loop keeps [I] while it runs and ends in [E] if an iteration raises. *)
Lemma hoare_for_each {A L} (I E : State -> Prop) (body : A -> L -> M L)
    xs acc :
  (forall x a, hoare I (body x a) (ends I E)) ->
  hoare I (for_each body xs acc) (ends I E).
Proof.
  intros H. revert acc.
  induction xs as [|x xs IH]; intros acc; simpl.
  - intros st Hst. exact Hst.
  - eapply hoare_bind; [apply H | intros a; apply IH | auto].
Qed.

Lemma ends_bind {A B} (I E : State -> Prop) (m : M A) (k : A -> M B) :
  hoare I m (ends I E) -> (forall a, hoare I (k a) (ends I E)) ->
  hoare I (bind m k) (ends I E).
Proof. intros Hm Hk. eapply hoare_bind; [exact Hm | exact Hk | auto]. Qed.

(** An assertion over two observations that [m] keeps is stable under
    [m]. *)
Lemma ends_keeps {X Y A} (f : State -> X) (g : State -> Y)
    (P : X -> Y -> Prop) (E : State -> Prop) (m : M A) :
  keeps f m -> keeps g m ->
  (forall st, P (f st) (g st) -> E st) ->
  hoare (fun st => P (f st) (g st)) m (ends (fun st => P (f st) (g st)) E).
Proof.
  intros Hf Hg HE st Hst. unfold ends.
  destruct (fst (m st)); [|apply HE]; now rewrite Hf, Hg.
Qed.

(** *** What [scrape] and [check_existing] touch *)

Lemma get_status_keeps {X} (f : State -> X) href :
  (forall u st, f (add_request u st) = f st) -> keeps f (get_status href).
Proof. intros H. unfold link_checker.get_status. keeps_auto. Qed.

(** [scrape] only adds to the two logs. *)
Lemma scrape_keeps {X} (f : State -> X) href :
  (forall u st, f (add_request u st) = f st) ->
  (forall u st, f (add_scrape_call u st) = f st) ->
  keeps f (scrape href).
Proof.
  intros H1 H2. unfold link_checker.scrape. keeps_auto.
  all: apply get_status_keeps, H1.
Qed.

Lemma scrape_calls_after href st :
  scrape_calls (snd (scrape href st)) = scrape_calls st ++ [href].
Proof.
  unfold link_checker.scrape. unfold bind at 1. unfold modify at 1.
  match goal with
  | |- scrape_calls (snd (?m ?s)) = _ =>
      assert (keeps scrape_calls m) as Hk
  end.
  { keeps_auto. all: apply get_status_keeps; reflexivity. }
  rewrite Hk. reflexivity.
Qed.

Lemma scrape_and_store_eq key st :
  scrape_and_store urlsplit geturl requests_get key st
  = match scrape key st with
    | (Ok s, st1) =>
        (Ok s, set_scraped_links (<[key := s]> (scraped_links st1)) st1)
    | (Raise e, st1) => (Raise e, st1)
    end.
Proof.
  unfold scrape_and_store. unfold_m.
  destruct (scrape key st) as [[s|e] st1]; reflexivity.
Qed.

(** [check_existing], step by step. *)
Lemma check_existing_eq link b st :
  check_existing link b st
  = match tag_href link with
    | None => (Raise KeyError, st)
    | Some href =>
        match urlsplit href with
        | Raise e => (Raise e, st)
        | Ok a =>
            match create_absolute_link a href st with
            | (Raise e, _) => (Raise e, st)
            | (Ok key, _) =>
                match scraped_links st !! key with
                | Some v =>
                    if truthy v then (Ok v, st)
                    else scrape_and_store urlsplit geturl requests_get key st
                | None => scrape_and_store urlsplit geturl requests_get key st
                end
            end
        end
    end.
Proof.
  unfold link_checker.check_existing, get_href.
  destruct (tag_href link) as [href|]; [|reflexivity].
  unfold bind at 1. unfold ret at 1.
  unfold bind at 1. unfold lift at 1.
  destruct (urlsplit href) as [a|e]; [|reflexivity].
  unfold bind at 1.
  pose proof (create_absolute_link_state a href st) as Hst.
  destruct (create_absolute_link a href st) as [[key|e] st1]; simpl in Hst;
    subst st1; [|reflexivity].
  unfold bind at 1. unfold gets at 1.
  fold (scrape_and_store urlsplit geturl requests_get key).
  destruct (scraped_links st !! key) as [v|]; [|reflexivity].
  destruct (truthy v); reflexivity.
Qed.

(** The three ways a call of [check_existing] can go: it raises before it
    looks anything up, it finds a truthy stored result, or it takes the miss
    branch for the resolved URL. *)
Lemma check_existing_cases link b st :
  (exists e, check_existing link b st = (Raise e, st))
  \/ (exists key v,
        scraped_links st !! key = Some v /\ truthy v = true
        /\ check_existing link b st = (Ok v, st))
  \/ (exists key,
        (forall v, scraped_links st !! key = Some v -> truthy v = false)
        /\ check_existing link b st
           = scrape_and_store urlsplit geturl requests_get key st).
Proof.
  rewrite check_existing_eq.
  destruct (tag_href link) as [href|]; [|left; eexists; reflexivity].
  destruct (urlsplit href) as [a|e]; [|left; eexists; reflexivity].
  destruct (create_absolute_link a href st) as [[key|e] st1];
    [|left; eexists; reflexivity].
  destruct (scraped_links st !! key) as [v|] eqn:Hv.
  - destruct (truthy v) eqn:Ht.
    + right; left. exists key, v. auto.
    + right; right. exists key. split; [|reflexivity].
      intros v' Hv'. congruence.
  - right; right. exists key. split; [|reflexivity].
    intros v' Hv'. congruence.
Qed.

(** [check_existing] leaves alone whatever the two logs and the cache do not
    show. *)
Lemma check_existing_keeps {X} (f : State -> X) link b :
  (forall u st, f (add_request u st) = f st) ->
  (forall u st, f (add_scrape_call u st) = f st) ->
  (forall m st, f (set_scraped_links m st) = f st) ->
  keeps f (check_existing link b).
Proof.
  intros H1 H2 H3 st.
  destruct (check_existing_cases link b st)
    as [[e ->]|[(key & v & _ & _ & ->)|(key & _ & ->)]]; try reflexivity.
  rewrite scrape_and_store_eq.
  pose proof (scrape_keeps f key H1 H2 st) as Hk.
  destruct (scrape key st) as [[s|e] st1]; simpl in *; [|exact Hk].
  now rewrite H3.
Qed.

(** *** The link loop *)

Lemma link_body_eq name link caught :
  link_body name link caught
  = match tag_href link with
    | None => verbose_print (NoHref link) ;; ret caught
    | Some href =>
        let! c := lift (str_index href 0) in
        if Ascii.eqb c "#" then verbose_print (InternalLink link) ;; ret caught
        else
          let! b := read_base_url in
          let! status := check_existing link b in
          judge name link status caught
    end.
Proof. reflexivity. Qed.

Lemma not_in_200_ignore_true s :
  not_in_200_ignore s = true
  <-> s <> StatusCode 200 /\ s <> StatusStr "ignore".
Proof.
  destruct s as [c|t]; simpl; rewrite negb_true_iff.
  - rewrite Z.eqb_neq. split.
    + intros H. split; congruence.
    + intros [H _] ->. now apply H.
  - rewrite String.eqb_neq. split.
    + intros H. split; congruence.
    + intros [_ H] ->. now apply H.
Qed.

(** [judge] records the result, never raises, and touches the flag only to
    raise it, which it does exactly for a broken link. *)
Lemma judge_spec name link s caught st :
  let '(r, st') := judge name link s caught st in
  r = Ok (if not_in_200_ignore s then S caught else caught)
  /\ checked st' = checked st ++ [(link, s)]
  /\ err_code st' = (if not_in_200_ignore s then 1 else err_code st).
Proof.
  unfold judge. unfold_m.
  destruct st as [ec v o sl bu so ef rq sc ch]; simpl.
  destruct (not_in_200_ignore s), v, o, caught as [|n]; simpl; auto.
Qed.

Lemma judge_keeps {X} (f : State -> X) name link s caught :
  (forall e st, f (add_stdout e st) = f st) ->
  (forall e st, f (add_errfile e st) = f st) ->
  (forall l v st, f (add_checked l v st) = f st) ->
  (forall c st, f (set_err_code c st) = f st) ->
  keeps f (judge name link s caught).
Proof. intros H1 H2 H3 H4. unfold judge. keeps_auto. Qed.

(** C9: an anchor whose [href] is the empty string makes the fragment test
    [href[0]] raise [IndexError]; nothing is printed, resolved or checked,
    and the exception leaves the link loop. *)
Theorem empty_href_raises (name : string) (link : Tag) (caught : nat)
    (st : State) :
  tag_href link = Some "" ->
  str_index "" 0 = Raise IndexError
  /\ link_body name link caught st = (Raise IndexError, st)
  /\ forall rest,
       for_each (link_body name) (link :: rest) caught st
       = (Raise IndexError, st).
Proof.
  intros Hh.
  assert (link_body name link caught st = (Raise IndexError, st)) as Hb.
  { rewrite link_body_eq, Hh. reflexivity. }
  repeat split; [exact Hb|].
  intros rest. simpl. unfold bind. now rewrite Hb.
Qed.

Lemma link_body_fragment name link href caught st :
  tag_href link = Some href -> starts_with_hash href = true ->
  link_body name link caught st = (Ok caught, skip_note link st).
Proof.
  intros Hh Hs. rewrite link_body_eq, Hh.
  destruct href as [|c rest]; [discriminate|]. simpl in Hs.
  unfold bind at 1. unfold lift at 1. simpl. rewrite Hs.
  unfold skip_note. unfold_m. destruct (verbose st); reflexivity.
Qed.

Lemma link_body_no_href name link caught st :
  tag_href link = None ->
  link_body name link caught st
  = (Ok caught, if verbose st then add_stdout (NoHref link) st else st).
Proof.
  intros Hh. rewrite link_body_eq, Hh.
  unfold_m. destruct (verbose st); reflexivity.
Qed.

(** A link that is checked: the loop reads the global, calls
    [check_existing] and hands the result to [judge]. *)
Lemma link_body_checked name link href caught st :
  tag_href link = Some href -> href <> "" -> starts_with_hash href = false ->
  link_body name link caught st
  = (let! b := read_base_url in
     let! status := check_existing link b in
     judge name link status caught) st.
Proof.
  intros Hh Hne Hs. rewrite link_body_eq, Hh.
  destruct href as [|c rest]; [contradiction|]. simpl in Hs.
  unfold bind at 1. unfold lift at 1. simpl. now rewrite Hs.
Qed.

(** Splits a sequence at its binds; a piece that keeps both observations of
    the invariant is closed by [base], the rest is left to the caller. *)
Ltac ends_auto base :=
  repeat first
    [ solve [apply base; keeps_auto]
    | match goal with
      | |- hoare _ (bind _ _) _ => apply ends_bind; [|intros ?]
      | |- hoare _ (if ?b then _ else _) _ => destruct b
      | |- hoare _ (match ?x with _ => _ end) _ => destruct x
      end ].

(** *** The cache *)

Lemma cache_inv_distinct st : cache_inv st -> calls_distinct st.
Proof. intros (_ & H & _). exact H. Qed.

Lemma cache_inv_keeps {A} (m : M A) :
  keeps scraped_links m -> keeps scrape_calls m ->
  hoare cache_inv m (ends cache_inv calls_distinct).
Proof.
  intros H1 H2.
  apply (ends_keeps scraped_links scrape_calls cache_ok calls_distinct m H1 H2).
  exact cache_inv_distinct.
Qed.

Section Cache.

(** The HTTP layer under [requests] only delivers status codes between 100
    and 999; all that matters here is that a code is never [0], the one
    [int] that [if status:] takes for a miss. *)
Hypothesis status_code_nonzero :
  forall earlier url body, requests_get earlier url <> Response 0 body.

Lemma scrape_truthy href s st st' :
  scrape href st = (Ok s, st') -> truthy s = true.
Proof using Type status_code_nonzero.
  destruct (urlsplit href) as [a|e] eqn:Hs;
    [|rewrite (scrape_raises _ _ _ Hs); discriminate].
  destruct (String.eqb_spec (scheme a) "") as [H1|H1];
    [|destruct (String.eqb_spec (scheme a) "https") as [H2|H2];
      [|destruct (String.eqb_spec (scheme a) "http") as [H3|H3];
        [|destruct (String.eqb_spec (scheme a) "mailto") as [H4|H4]]]].
  5:{ rewrite (scrape_other _ _ _ Hs H1 H2 H3 H4).
      intros [= <- <-]. reflexivity. }
  4:{ rewrite (scrape_mailto _ _ _ Hs H4). intros [= <- <-].
      reflexivity. }
  all: rewrite (scrape_web _ _ _ Hs) by auto.
  all: destruct (requests_get (requests st) (request_url a))
         as [c body| |] eqn:Hr; simpl; intros [= <- <-]; try reflexivity.
  all: simpl; apply negb_true_iff, Z.eqb_neq; intros ->.
  all: exact (status_code_nonzero _ _ _ Hr).
Qed.

(** The miss branch: one call of [scrape]; its result, if any, goes into
    the cache under the key, and nothing stored before is lost. *)
Lemma scrape_and_store_spec key st :
  cache_inv st ->
  (forall v, scraped_links st !! key = Some v -> truthy v = false) ->
  let '(r, st') := scrape_and_store urlsplit geturl requests_get key st in
  r = fst (scrape key st)
  /\ scrape_calls st' = scrape_calls st ++ [key]
  /\ calls_distinct st'
  /\ (forall k v, scraped_links st !! k = Some v ->
                  scraped_links st' !! k = Some v)
  /\ match r with
     | Ok s =>
         scraped_links st' = <[key := s]> (scraped_links st) /\ cache_inv st'
     | Raise _ => scraped_links st' = scraped_links st
     end.
Proof using Type status_code_nonzero.
  intros (Htruthy & Hnodup & Hstored) Hmiss.
  assert (scraped_links st !! key = None) as Hnone.
  { destruct (scraped_links st !! key) as [v|] eqn:Hv; [exfalso|reflexivity].
    pose proof (Htruthy _ _ Hv). pose proof (Hmiss _ eq_refl). congruence. }
  assert (key ∉ scrape_calls st) as Hfresh.
  { intros Hin. destruct (Hstored _ Hin) as [v Hv]. congruence. }
  assert (NoDup (scrape_calls st ++ [key])) as Hnodup'.
  { apply NoDup_app. repeat split; [exact Hnodup| |apply NoDup_singleton].
    intros k Hk Hk'. apply list_elem_of_singleton in Hk'. now subst k. }
  rewrite scrape_and_store_eq.
  pose proof (scrape_calls_after key st) as Hcalls.
  pose proof (scrape_keeps scraped_links key
                (fun _ _ => eq_refl) (fun _ _ => eq_refl) st) as Hcache.
  destruct (scrape key st) as [[s|e] st1] eqn:Hscrape; simpl in *.
  - split; [reflexivity|]. split; [exact Hcalls|].
    split; [unfold calls_distinct; simpl; now rewrite Hcalls|].
    rewrite Hcache. split.
    { intros k v Hv. rewrite lookup_insert_ne; [exact Hv|congruence]. }
    split; [reflexivity|]. unfold cache_inv, cache_ok. simpl.
    rewrite Hcalls. split; [|split; [exact Hnodup'|]].
    + intros k v. rewrite lookup_insert. case_decide.
      * intros [= <-]. eapply scrape_truthy, Hscrape.
      * apply Htruthy.
    + intros k Hk. rewrite lookup_insert. case_decide; [eauto|].
      apply Hstored. apply elem_of_app in Hk as [Hk|Hk]; [exact Hk|].
      apply list_elem_of_singleton in Hk. congruence.
  - split; [reflexivity|]. split; [exact Hcalls|].
    split; [unfold calls_distinct; now rewrite Hcalls|].
    rewrite Hcache. auto.
Qed.

Lemma check_existing_inv link b :
  hoare cache_inv (check_existing link b) (ends cache_inv calls_distinct).
Proof using Type status_code_nonzero.
  intros st Hinv.
  destruct (check_existing_cases link b st)
    as [[e ->]|[(key & v & _ & _ & ->)|(key & Hmiss & ->)]]; simpl.
  - now apply cache_inv_distinct.
  - exact Hinv.
  - pose proof (scrape_and_store_spec key st Hinv Hmiss) as H.
    destruct (scrape_and_store _ _ _ key st) as [[s|e] st'].
    + apply H.
    + apply H.
Qed.

Lemma link_body_cache_inv name link caught :
  hoare cache_inv (link_body name link caught)
    (ends cache_inv calls_distinct).
Proof using Type status_code_nonzero.
  rewrite link_body_eq. ends_auto @cache_inv_keeps.
  - apply check_existing_inv.
  - apply cache_inv_keeps; apply judge_keeps; reflexivity.
Qed.

Lemma license_body_cache_inv name u :
  hoare cache_inv (license_body name u) (ends cache_inv calls_distinct).
Proof using Type status_code_nonzero.
  unfold link_checker.license_body. ends_auto @cache_inv_keeps.
  apply hoare_for_each. intros link caught. apply link_body_cache_inv.
Qed.

Lemma main_cache_inv all_links :
  hoare cache_inv (main all_links) (ends cache_inv calls_distinct).
Proof using Type status_code_nonzero.
  unfold link_checker.main. ends_auto @cache_inv_keeps.
  apply hoare_for_each. intros name u. apply license_body_cache_inv.
Qed.

Lemma initial_cache_inv v o : cache_inv (initial v o).
Proof.
  unfold cache_inv, cache_ok. simpl. split; [|split].
  - intros k x Hk. now rewrite lookup_empty in Hk.
  - apply NoDup_nil_2.
  - intros k Hk. now apply not_elem_of_nil in Hk.
Qed.

(** C2: [scrape] runs at most once per resolved URL.  From a state in which
    the cache invariant holds, a call of [check_existing] whose link resolves
    to [key] either finds nothing stored, calls [scrape] once with [key] and
    stores its result under [key], or finds a stored result and returns it
    with no call and no change at all; no entry stored before is ever
    changed.  Over a whole run the URLs handed to [scrape] are pairwise
    distinct. *)
Theorem scrape_at_most_once_per_url :
  (forall link b st href a key,
     cache_inv st ->
     tag_href link = Some href -> urlsplit href = Ok a ->
     create_absolute_link a href st = (Ok key, st) ->
     let '(r, st') := check_existing link b st in
     match scraped_links st !! key with
     | None =>
         r = fst (scrape key st)
         /\ scrape_calls st' = scrape_calls st ++ [key]
         /\ (forall s, r = Ok s ->
             scraped_links st' = <[key := s]> (scraped_links st))
     | Some v => r = Ok v /\ st' = st
     end
     /\ (forall k v, scraped_links st !! k = Some v ->
                     scraped_links st' !! k = Some v)
     /\ ends cache_inv calls_distinct r st')
  /\ (forall v o all_links,
        let '(r, st) := main all_links (initial v o) in
        NoDup (scrape_calls st) /\ ends cache_inv calls_distinct r st).
Proof using Type status_code_nonzero.
  split.
  - intros link b st href a key Hinv Hh Hs Hkey.
    pose proof (check_existing_inv link b st Hinv) as Hends.
    pose proof (check_existing_eq link b st) as Heq.
    rewrite Hh, Hs, Hkey in Heq.
    destruct (scraped_links st !! key) as [v|] eqn:Hv.
    + destruct Hinv as (Htruthy & _). rewrite (Htruthy _ _ Hv) in Heq.
      rewrite Heq in *. auto.
    + rewrite Heq in *.
      assert (forall v, scraped_links st !! key = Some v -> truthy v = false)
        as Hmiss by (intros v Hv'; congruence).
      pose proof (scrape_and_store_spec key st Hinv Hmiss) as H.
      destruct (scrape_and_store _ _ _ key st) as [r st'].
      destruct H as (Hr & Hcalls & _ & Hkeep & Hstore).
      repeat split; auto.
      intros s ->. apply Hstore.
  - intros v o all_links.
    pose proof (main_cache_inv all_links _ (initial_cache_inv v o)) as H.
    destruct (main all_links (initial v o)) as [r st]. simpl in H.
    split; [|exact H].
    destruct r; [apply cache_inv_distinct|]; exact H.
Qed.

End Cache.

(** *** The cache key *)

(** C1 (amended): the key under which [check_existing] keeps a result is the
    string that [create_absolute_link] returns, as it is: the href itself
    when it has a scheme or a host or no path, [urljoin] of the global base
    URL and the href otherwise.  No other entry of the cache changes. *)
Theorem cache_key_is_resolved_href
    (link : Tag) (b href : string) (a : SplitResult) (s : status)
    (st st' : State) :
  tag_href link = Some href ->
  urlsplit href = Ok a ->
  check_existing link b st = (Ok s, st') ->
  exists key,
    create_absolute_link a href st = (Ok key, st)
    /\ scraped_links st' !! key = Some s
    /\ (forall k, k <> key -> scraped_links st' !! k = scraped_links st !! k)
    /\ (scheme a <> "" \/ netloc a <> "" \/ path a = "" -> key = href)
    /\ (scheme a = "" /\ netloc a = "" /\ path a <> "" ->
        exists bu, base_url st = Some bu /\ urljoin bu href = Ok key).
Proof.
  intros Hh Hs. rewrite check_existing_eq, Hh, Hs.
  pose proof (create_absolute_link_state a href st) as Hst.
  destruct (create_absolute_link a href st) as [[key|e] st1] eqn:Hkey;
    simpl in Hst; subst st1; [|discriminate].
  intros Hres. exists key. split; [reflexivity|].
  assert (scraped_links st' !! key = Some s
          /\ forall k, k <> key ->
               scraped_links st' !! k = scraped_links st !! k) as [H1 H2].
  { assert (scrape_and_store urlsplit geturl requests_get key st = (Ok s, st')
            -> scraped_links st' = <[key := s]> (scraped_links st)) as Hmiss.
    { rewrite scrape_and_store_eq.
      pose proof (scrape_keeps scraped_links key
                    (fun _ _ => eq_refl) (fun _ _ => eq_refl) st) as Hk.
      destruct (scrape key st) as [[s1|e] st1]; [|discriminate].
      simpl in Hk. intros [= <- <-]. simpl. now rewrite Hk. }
    destruct (scraped_links st !! key) as [v|] eqn:Hv.
    - destruct (truthy v).
      + injection Hres as <- <-. auto.
      + rewrite (Hmiss Hres). split; [apply lookup_insert_eq|].
        intros k Hk. now apply lookup_insert_ne.
    - rewrite (Hmiss Hres). split; [apply lookup_insert_eq|].
      intros k Hk. now apply lookup_insert_ne. }
  split; [exact H1|]. split; [exact H2|]. split.
  - intros Habs. apply is_relative_false in Habs.
    rewrite (create_absolute_link_absolute _ _ _ Habs) in Hkey. congruence.
  - intros Hrel. apply is_relative_true in Hrel.
    rewrite (create_absolute_link_relative _ _ _ Hrel) in Hkey.
    destruct (base_url st) as [bu|]; [|discriminate].
    exists bu. split; [reflexivity|congruence].
Qed.

(** *** The error flag *)

Lemma flag_inv_keeps {A} (m : M A) :
  keeps err_code m -> keeps checked m ->
  hoare flag_inv m (ends flag_inv flag_inv).
Proof.
  intros H1 H2.
  apply (ends_keeps err_code checked flag_ok flag_inv m H1 H2).
  auto.
Qed.

Lemma flag_up_keeps {A} (m : M A) :
  keeps err_code m -> hoare flag_up m (ends flag_up flag_up).
Proof.
  intros H.
  apply (ends_keeps err_code err_code (fun x _ => x = 1) flag_up m H H).
  auto.
Qed.

Lemma judge_flag_inv name link s caught :
  hoare flag_inv (judge name link s caught) (ends flag_inv flag_inv).
Proof.
  intros st Hinv. pose proof (judge_spec name link s caught st) as H.
  destruct (judge name link s caught st) as [r st'].
  destruct H as (-> & Hc & He). simpl.
  unfold flag_inv, flag_ok in *. rewrite Hc, He, existsb_app. simpl.
  unfold broken at 2. simpl.
  destruct (not_in_200_ignore s).
  - now rewrite orb_true_r.
  - now rewrite !orb_false_r.
Qed.

Lemma judge_flag_up name link s caught :
  hoare flag_up (judge name link s caught) (ends flag_up flag_up).
Proof.
  intros st Hup. pose proof (judge_spec name link s caught st) as H.
  destruct (judge name link s caught st) as [r st'].
  destruct H as (-> & _ & He). simpl. unfold flag_up in *. rewrite He.
  now destruct (not_in_200_ignore s).
Qed.

Lemma check_existing_keeps_flag link b :
  keeps err_code (check_existing link b)
  /\ keeps checked (check_existing link b).
Proof. split; apply check_existing_keeps; reflexivity. Qed.

Lemma link_body_flag_inv name link caught :
  hoare flag_inv (link_body name link caught) (ends flag_inv flag_inv).
Proof.
  rewrite link_body_eq. ends_auto @flag_inv_keeps.
  - apply flag_inv_keeps; apply check_existing_keeps_flag.
  - apply judge_flag_inv.
Qed.

Lemma link_body_flag_up name link caught :
  hoare flag_up (link_body name link caught) (ends flag_up flag_up).
Proof.
  rewrite link_body_eq. ends_auto @flag_up_keeps.
  - apply flag_up_keeps; apply check_existing_keeps_flag.
  - apply judge_flag_up.
Qed.

Lemma license_body_flag_inv name u :
  hoare flag_inv (license_body name u) (ends flag_inv flag_inv).
Proof.
  unfold link_checker.license_body. ends_auto @flag_inv_keeps.
  apply hoare_for_each. intros link caught. apply link_body_flag_inv.
Qed.

Lemma license_body_flag_up name u :
  hoare flag_up (license_body name u) (ends flag_up flag_up).
Proof.
  unfold link_checker.license_body. ends_auto @flag_up_keeps.
  apply hoare_for_each. intros link caught. apply link_body_flag_up.
Qed.

Lemma main_flag_inv all_links :
  hoare flag_inv (main all_links) (ends flag_inv flag_inv).
Proof.
  unfold link_checker.main. ends_auto @flag_inv_keeps.
  apply hoare_for_each. intros name u. apply license_body_flag_inv.
Qed.

Lemma ends_same {A} (I : State -> Prop) (r : result A) st :
  ends I I r st -> I st.
Proof. now destruct r. Qed.

(** [main] returns the flag it ends with. *)
Lemma main_returns_flag all_links st code :
  fst (main all_links st) = Ok code ->
  code = err_code (snd (main all_links st)).
Proof.
  unfold link_checker.main. unfold_m.
  destruct (for_each _ all_links tt st) as [[u|e] st1]; [|discriminate].
  destruct (output_err st1); simpl; congruence.
Qed.

Lemma existsb_broken seen :
  existsb broken seen = true
  <-> exists link s, (link, s) ∈ seen
        /\ s <> StatusCode 200 /\ s <> StatusStr "ignore".
Proof.
  rewrite existsb_exists. split.
  - intros [[link s] [Hin Hb]]. exists link, s.
    split; [now apply list_elem_of_In|].
    now apply not_in_200_ignore_true.
  - intros (link & s & Hin & Hb). exists (link, s).
    split; [now apply list_elem_of_In|].
    now apply not_in_200_ignore_true.
Qed.

(** One turn of the link loop either leaves the flag and the record of
    results alone, or records one result and raises the flag if that result
    is a broken link. *)
Lemma link_body_flag_step name link caught st :
  let st' := snd (link_body name link caught st) in
  (checked st' = checked st /\ err_code st' = err_code st)
  \/ (exists s, checked st' = checked st ++ [(link, s)]
        /\ err_code st' = if not_in_200_ignore s then 1 else err_code st).
Proof.
  destruct (tag_href link) as [href|] eqn:Hh.
  2:{ left. rewrite (link_body_no_href _ _ _ _ Hh). simpl.
      now destruct (verbose st). }
  destruct (String.eqb_spec href "") as [->|Hne].
  { left. rewrite link_body_eq, Hh. auto. }
  destruct (starts_with_hash href) eqn:Hs.
  { left. rewrite (link_body_fragment _ _ _ _ _ Hh Hs). unfold skip_note.
    simpl. now destruct (verbose st). }
  rewrite (link_body_checked _ _ _ _ _ Hh Hne Hs).
  unfold bind at 1. unfold read_base_url, bind, gets, ret, raise.
  destruct (base_url st) as [b|]; [|left; auto].
  destruct (check_existing_keeps_flag link b) as [He Hc].
  specialize (He st). specialize (Hc st).
  destruct (check_existing link b st) as [[s|e] st1]; simpl in *;
    [|left; auto].
  right. exists s. pose proof (judge_spec name link s caught st1) as H.
  destruct (judge name link s caught st1) as [r st2]. simpl.
  destruct H as (_ & -> & ->). now rewrite Hc, He.
Qed.

(** *** Fragment links *)

Lemma blind_ret {A} (a : A) : blind (ret a).
Proof. intros st1 st2 H. auto. Qed.

Lemma blind_raise {A} e : blind (@raise A e).
Proof. intros st1 st2 H. auto. Qed.

Lemma blind_lift {A} (r : result A) : blind (lift r).
Proof. intros st1 st2 H. auto. Qed.

Lemma blind_gets {A} (g : State -> A) :
  (forall st, g st = g (mute st)) -> blind (gets g).
Proof.
  intros Hg st1 st2 H. split; [|exact H]. simpl.
  now rewrite (Hg st1), (Hg st2), H.
Qed.

Lemma blind_modify (g : State -> State) :
  (forall st, mute (g st) = g (mute st)) -> blind (modify g).
Proof.
  intros Hg st1 st2 H. split; [reflexivity|]. simpl.
  now rewrite (Hg st1), (Hg st2), H.
Qed.

Lemma blind_print e : blind (print e).
Proof. intros st1 st2 H. split; [reflexivity|exact H]. Qed.

Lemma blind_bind {A B} (m : M A) (k : A -> M B) :
  blind m -> (forall a, blind (k a)) -> blind (bind m k).
Proof.
  intros Hm Hk st1 st2 H. unfold bind.
  destruct (Hm st1 st2 H) as [Hr Hs].
  destruct (m st1) as [[a1|e1] s1], (m st2) as [[a2|e2] s2]; simpl in *;
    try congruence.
  - injection Hr as <-. now apply Hk.
  - injection Hr as <-. auto.
Qed.

Lemma blind_when b (m : M unit) : blind m -> blind (when b m).
Proof. intros H. destruct b; [exact H|apply blind_ret]. Qed.

Ltac blind_step :=
  first
    [ apply blind_ret | apply blind_raise | apply blind_lift
    | apply blind_print
    | apply blind_gets; intros ?; reflexivity
    | apply blind_modify; intros ?; reflexivity
    | match goal with
      | |- blind (bind _ _) => apply blind_bind; [|intros ?]
      | |- blind (when _ _) => apply blind_when
      | |- blind (if ?b then _ else _) => destruct b
      | |- blind (match ?x with _ => _ end) => destruct x
      end ].

Lemma link_body_blind name link caught : blind (link_body name link caught).
Proof.
  unfold link_checker.link_body, link_checker.check_existing, link_checker.scrape,
    link_checker.get_status, link_checker.http_get,
    link_checker.create_absolute_link, verbose_print, output_write,
    read_base_url, get_href.
  repeat blind_step.
Qed.

Lemma mute_skip_note link st : mute (skip_note link st) = mute st.
Proof. unfold skip_note. now destruct (verbose st). Qed.

Lemma for_each_cons {A L} (body : A -> L -> M L) x xs acc st :
  for_each body (x :: xs) acc st
  = match body x acc st with
    | (Ok acc', st') => for_each body xs acc' st'
    | (Raise e, st') => (Raise e, st')
    end.
Proof. reflexivity. Qed.

(** The link loop over a list of anchors and over the same list without
    its fragment links agree on everything but the notes printed. *)
Lemma fragments_erased name links :
  forall caught st1 st2,
    mute st1 = mute st2 ->
    let without :=
      for_each (link_body name)
        (List.filter (fun l => negb (is_fragment l)) links) caught st1 in
    let all := for_each (link_body name) links caught st2 in
    fst without = fst all /\ mute (snd without) = mute (snd all).
Proof.
  induction links as [|link links IH]; intros caught st1 st2 Hsim.
  - simpl. auto.
  - cbv zeta. rewrite for_each_cons. cbn [List.filter].
    destruct (is_fragment link) eqn:Hf; cbn [negb].
    + unfold is_fragment in Hf.
      destruct (tag_href link) as [href|] eqn:Hh; [|discriminate].
      rewrite (link_body_fragment _ _ _ _ _ Hh Hf).
      apply IH. now rewrite mute_skip_note.
    + rewrite for_each_cons.
      destruct (link_body_blind name link caught st1 st2 Hsim) as [Hr Hs].
      destruct (link_body name link caught st1) as [[c1|e1] s1],
        (link_body name link caught st2) as [[c2|e2] s2]; simpl in *;
        try congruence.
      * injection Hr as <-. now apply IH.
      * auto.
Qed.

(** C7: an anchor whose [href] begins with [#] is skipped before it is
    resolved or checked.  The turn of the loop returns with the error count
    as it was and changes nothing but, in a verbose run, the output; in
    particular [scrape] is not called.  Over any list of anchors, the calls
    of [scrape], the requests, the cache, the flag and the results are those
    of the same loop with the fragment links left out. *)
Theorem fragment_links_never_scraped
    (name : string) (link : Tag) (rest : string) (caught : nat) (st : State) :
  tag_href link = Some (String "#" rest) ->
  link_body name link caught st = (Ok caught, skip_note link st)
  /\ scrape_calls (skip_note link st) = scrape_calls st
  /\ requests (skip_note link st) = requests st
  /\ scraped_links (skip_note link st) = scraped_links st
  /\ checked (skip_note link st) = checked st
  /\ err_code (skip_note link st) = err_code st
  /\ forall before after,
       let all :=
         for_each (link_body name) (before ++ link :: after) caught st in
       let without :=
         for_each (link_body name)
           (List.filter (fun l => negb (is_fragment l)) (before ++ after))
           caught st in
       fst all = fst without
       /\ scrape_calls (snd all) = scrape_calls (snd without)
       /\ requests (snd all) = requests (snd without)
       /\ scraped_links (snd all) = scraped_links (snd without)
       /\ checked (snd all) = checked (snd without)
       /\ err_code (snd all) = err_code (snd without).
Proof.
  intros Hh.
  assert (is_fragment link = true) as Hf by (unfold is_fragment; now rewrite Hh).
  split; [now apply (link_body_fragment _ _ _ _ _ Hh)|].
  unfold skip_note.
  do 5 (split; [now destruct (verbose st)|]).
  intros before after.
  assert (List.filter (fun l => negb (is_fragment l)) (before ++ after)
          = List.filter (fun l => negb (is_fragment l))
              (before ++ link :: after)) as Hfilter.
  { rewrite !List.filter_app. simpl. now rewrite Hf. }
  pose proof (fragments_erased name (before ++ link :: after) caught st st
                eq_refl) as H.
  cbv zeta in H. rewrite <- Hfilter in H. destruct H as [Hr Hs].
  split; [now symmetry|].
  repeat split.
  - exact (f_equal scrape_calls (eq_sym Hs)).
  - exact (f_equal requests (eq_sym Hs)).
  - exact (f_equal scraped_links (eq_sym Hs)).
  - exact (f_equal checked (eq_sym Hs)).
  - exact (f_equal err_code (eq_sym Hs)).
Qed.

(** *** The document loop *)

Lemma py_split_html stem :
  exists front,
    front <> [] /\ py_split "." (stem +:+ ".html") = front ++ ["html"].
Proof.
  induction stem as [|c stem (front & Hne & IH)].
  - exists [EmptyString]. split; [discriminate|reflexivity].
  - change (String c stem +:+ ".html") with (String c (stem +:+ ".html")).
    cbn [py_split]. rewrite IH. destruct (Ascii.eqb c ".").
    + exists (EmptyString :: front). split; [discriminate|reflexivity].
    + destruct front as [|p ps]; [contradiction|].
      exists (String c p :: ps). split; [discriminate|reflexivity].
Qed.

Lemma extension_html stem :
  index_last (py_split "." (stem +:+ ".html")) = Ok "html".
Proof.
  destruct (py_split_html stem) as (front & _ & ->). apply index_last_app.
Qed.

Lemma substring_append s t :
  String.substring 0 (String.length s) (s +:+ t) = s.
Proof.
  induction s as [|c s IH].
  - now destruct t.
  - change (String c (String.substring 0 (String.length s) (s +:+ t))
            = String c s).
    now f_equal.
Qed.

Lemma length_append s t :
  String.length (s +:+ t) = (String.length s + String.length t)%nat.
Proof.
  induction s as [|c s IH]; [reflexivity|].
  change (S (String.length (s +:+ t))
          = S (String.length s + String.length t)).
  now f_equal.
Qed.

Lemma drop_last5_html stem : drop_last5 (stem +:+ ".html") = stem.
Proof.
  unfold drop_last5. rewrite length_append.
  replace (String.length stem + String.length ".html" - 5)%nat
    with (String.length stem) by (cbn; lia).
  apply substring_append.
Qed.

(** X2: a file whose name does not end in [.html] is skipped: the document
    loop prints the two heading lines and, in a verbose run, the note, and
    does nothing else. *)
Theorem license_body_skips_non_html (name : string) (st : State) :
  index_last (py_split "." name) <> Ok "html" ->
  license_body name tt st
  = (Ok tt,
     let st1 := add_stdout (NowChecking name) (add_stdout Blank st) in
     if verbose st then add_stdout (SkipNonHtml name) st1 else st1).
Proof.
  intros Hext. unfold link_checker.license_body.
  pose proof (py_split_nonempty "." name) as Hne.
  destruct (index_last_nonempty _ Hne) as [ext Hlast].
  assert (ext <> "html") as Hx by congruence.
  apply String.eqb_neq in Hx.
  unfold_m. rewrite Hlast, Hx. cbn.
  destruct (verbose st); reflexivity.
Qed.

(** X3: a file [<stem>.html] whose stem has no underscore ends the run: the
    base-URL derivation raises [IndexError] after the two heading lines,
    before the global [base_url] is assigned and before the page is
    requested. *)
Theorem license_body_html_without_underscore (stem : string) (st : State) :
  ~ In "_"%char (list_ascii_of_string stem) ->
  license_body (stem +:+ ".html") tt st
  = (Raise IndexError,
     add_stdout (NowChecking (stem +:+ ".html")) (add_stdout Blank st)).
Proof.
  intros Hn. unfold link_checker.license_body.
  unfold_m. rewrite extension_html, drop_last5_html. cbn.
  unfold create_base_link. rewrite (py_split_no_sep _ _ Hn). reflexivity.
Qed.

(** [scrape] makes at most one request. *)
Lemma scrape_requests href st :
  requests (snd (scrape href st)) = requests st
  \/ exists u, requests (snd (scrape href st)) = requests st ++ [u].
Proof.
  destruct (urlsplit href) as [a|e] eqn:Hs;
    [|rewrite (scrape_raises _ _ _ Hs); now left].
  destruct (String.eqb_spec (scheme a) "") as [H1|H1];
    [|destruct (String.eqb_spec (scheme a) "https") as [H2|H2];
      [|destruct (String.eqb_spec (scheme a) "http") as [H3|H3];
        [|destruct (String.eqb_spec (scheme a) "mailto") as [H4|H4]]]].
  5:{ rewrite (scrape_other _ _ _ Hs H1 H2 H3 H4). now left. }
  4:{ rewrite (scrape_mailto _ _ _ Hs H4). now left. }
  all: rewrite (scrape_web _ _ _ Hs) by auto; right; eexists; reflexivity.
Qed.

(** A call of [check_existing] either leaves both logs alone or calls
    [scrape] once, which makes at most one request. *)
Lemma check_existing_logs link b st :
  let st' := snd (check_existing link b st) in
  (requests st' = requests st /\ scrape_calls st' = scrape_calls st)
  \/ (exists key,
        scrape_calls st' = scrape_calls st ++ [key]
        /\ (requests st' = requests st
            \/ exists u, requests st' = requests st ++ [u])).
Proof.
  cbv zeta.
  destruct (check_existing_cases link b st)
    as [[e ->]|[(key & v & _ & _ & ->)|(key & _ & ->)]]; [now left..|].
  right. exists key. rewrite scrape_and_store_eq.
  pose proof (scrape_calls_after key st) as Hc.
  pose proof (scrape_requests key st) as Hr.
  destruct (scrape key st) as [[s|e] st1]; simpl in *; auto.
Qed.

Lemma ends_keeps1 {X A} (f : State -> X) (P : X -> Prop) (m : M A) :
  keeps f m ->
  hoare (fun st => P (f st)) m
    (ends (fun st => P (f st)) (fun st => P (f st))).
Proof.
  intros Hf.
  exact (ends_keeps f f (fun x _ => P x) (fun st => P (f st)) m Hf Hf
           (fun _ H => H)).
Qed.

Lemma ends_same_intro {A} (I : State -> Prop) (r : result A) st :
  I st -> ends I I r st.
Proof. now destruct r. Qed.

Lemma requests_from_keeps {A} l (m : M A) :
  keeps requests m ->
  hoare (requests_from l) m (ends (requests_from l) (requests_from l)).
Proof. apply (ends_keeps1 requests (fun r => l `prefix_of` r)). Qed.

Lemma base_url_is_keeps {A} b (m : M A) :
  keeps base_url m ->
  hoare (base_url_is b) m (ends (base_url_is b) (base_url_is b)).
Proof. apply (ends_keeps1 base_url (fun u => u = Some b)). Qed.

Lemma link_body_requests_from l name link caught :
  hoare (requests_from l) (link_body name link caught)
    (ends (requests_from l) (requests_from l)).
Proof.
  rewrite link_body_eq. ends_auto @requests_from_keeps.
  - intros st Hst. apply ends_same_intro.
    unfold requests_from in *.
    match goal with
    | |- context [link_checker.check_existing _ _ _ _ link ?b st] =>
        destruct (check_existing_logs link b st)
          as [[-> _]|(key & _ & [->|[u ->]])]; auto
    end.
    now apply prefix_app_r.
  - apply requests_from_keeps, judge_keeps; reflexivity.
Qed.

Lemma link_body_base_url_is b name link caught :
  hoare (base_url_is b) (link_body name link caught)
    (ends (base_url_is b) (base_url_is b)).
Proof.
  rewrite link_body_eq. ends_auto @base_url_is_keeps.
  - apply base_url_is_keeps, check_existing_keeps; reflexivity.
  - apply base_url_is_keeps, judge_keeps; reflexivity.
Qed.

(** The document loop on an HTML file whose base URL can be derived. *)
Lemma license_body_html_eq stem b st :
  create_base_link stem = Ok b ->
  license_body (stem +:+ ".html") tt st
  = let name := stem +:+ ".html" in
    match requests_get (requests st) (base +:+ name) with
    | Response _ content =>
        let links := find_all_a content in
        match for_each (link_body name) links 0%nat
                (at_links name b (length links) st) with
        | (Ok _, st') => (Ok tt, st')
        | (Raise e, st') => (Raise e, st')
        end
    | _ => (Raise RequestException,
            add_request (base +:+ name) (at_fetch name b st))
    end.
Proof.
  intros Hb. unfold link_checker.license_body, at_links, at_fetch.
  unfold_m. rewrite extension_html, drop_last5_html, Hb.
  destruct st as [ec v o sl bu so ef rq sc ch].
  cbn -[String.append base for_each].
  destruct (requests_get rq (base +:+ stem +:+ ".html"));
    [|reflexivity..].
  destruct v; cbn -[String.append base for_each];
    destruct (for_each _ _ _ _) as [[c|e] st']; reflexivity.
Qed.

(** X11: for a file [<stem>.html] with a derivable base URL [b], the
    document loop assigns [b] to the global [base_url], which it still holds
    at the end, and its first request is for the raw page
    [base + <stem>.html]; if that request does not bring a response the run
    ends with an exception after that one request and no link is checked. *)
Theorem license_body_html (stem b : string) (st : State) :
  create_base_link stem = Ok b ->
  let name := stem +:+ ".html" in
  let page_url := base +:+ name in
  let '(r, st') := license_body name tt st in
  base_url st' = Some b
  /\ (requests st ++ [page_url]) `prefix_of` requests st'
  /\ ((forall c content,
         requests_get (requests st) page_url <> Response c content) ->
      r = Raise RequestException
      /\ requests st' = requests st ++ [page_url]
      /\ scrape_calls st' = scrape_calls st
      /\ checked st' = checked st).
Proof.
  intros Hb name page_url.
  rewrite (license_body_html_eq _ _ _ Hb). cbv zeta.
  fold name. fold page_url.
  destruct (requests_get (requests st) page_url) as [c content| |] eqn:Hr.
  - set (links := find_all_a content).
    set (st0 := at_links name b (length links) st).
    assert (base_url_is b st0) as H1
      by (unfold st0, at_links; now destruct (verbose st)).
    assert (requests_from (requests st ++ [page_url]) st0) as H2.
    { unfold requests_from, st0, at_links. now destruct (verbose st). }
    pose proof (hoare_for_each _ _ (link_body name) links 0%nat
                  (fun x a => link_body_base_url_is b name x a) st0 H1) as H3.
    pose proof (hoare_for_each _ _ (link_body name) links 0%nat
                  (fun x a => link_body_requests_from _ name x a) st0 H2)
      as H4.
    destruct (for_each (link_body name) links 0%nat st0) as [[n|e] st'];
      simpl in H3, H4; (split; [exact H3|]); (split; [exact H4|]);
      intros Hno; now destruct (Hno c content).
  - split; [reflexivity|]. split; [reflexivity|]. intros _.
    repeat split.
  - split; [reflexivity|]. split; [reflexivity|]. intros _.
    repeat split.
Qed.

(** *** Skipped anchors *)

Lemma skipped_erased_sim name links :
  forall caught st1 st2,
    mute st1 = mute st2 ->
    let without :=
      for_each (link_body name) (List.filter not_skipped links) caught st1 in
    let all := for_each (link_body name) links caught st2 in
    fst without = fst all /\ mute (snd without) = mute (snd all).
Proof.
  induction links as [|link links IH]; intros caught st1 st2 Hsim.
  - simpl. auto.
  - cbv zeta. rewrite for_each_cons. cbn [List.filter].
    destruct (not_skipped link) eqn:Hns.
    + rewrite for_each_cons.
      destruct (link_body_blind name link caught st1 st2 Hsim) as [Hr Hs].
      destruct (link_body name link caught st1) as [[c1|e1] s1],
        (link_body name link caught st2) as [[c2|e2] s2]; simpl in *;
        try congruence.
      * injection Hr as <-. now apply IH.
      * auto.
    + unfold not_skipped in Hns.
      destruct (tag_href link) as [href|] eqn:Hh.
      * apply negb_false_iff in Hns.
        rewrite (link_body_fragment _ _ _ _ _ Hh Hns).
        apply IH. now rewrite mute_skip_note.
      * rewrite (link_body_no_href _ _ _ _ Hh).
        apply IH. rewrite Hsim. now destruct (verbose st2).
Qed.

(** X4: anchors without an [href] and anchors whose [href] begins with [#]
    have no effect beyond the notes of a verbose run: the link loop over
    any list of anchors returns the same, and ends with the same cache,
    logs, flag, results and error file, as the loop over the anchors that
    are not skipped. *)
Theorem skipped_links_have_no_effect
    (name : string) (links : list Tag) (caught : nat) (st : State) :
  let all := for_each (link_body name) links caught st in
  let kept :=
    for_each (link_body name) (List.filter not_skipped links) caught st in
  fst all = fst kept
  /\ scraped_links (snd all) = scraped_links (snd kept)
  /\ scrape_calls (snd all) = scrape_calls (snd kept)
  /\ requests (snd all) = requests (snd kept)
  /\ checked (snd all) = checked (snd kept)
  /\ err_code (snd all) = err_code (snd kept)
  /\ errfile (snd all) = errfile (snd kept)
  /\ base_url (snd all) = base_url (snd kept).
Proof.
  destruct (skipped_erased_sim name links caught st st eq_refl) as [Hr Hs].
  cbv zeta in *. split; [now symmetry|].
  repeat split.
  - exact (f_equal scraped_links (eq_sym Hs)).
  - exact (f_equal scrape_calls (eq_sym Hs)).
  - exact (f_equal requests (eq_sym Hs)).
  - exact (f_equal checked (eq_sym Hs)).
  - exact (f_equal err_code (eq_sym Hs)).
  - exact (f_equal errfile (eq_sym Hs)).
  - exact (f_equal base_url (eq_sym Hs)).
Qed.

(** *** Invariants of the cache over a run *)

Section RunInvariant.

Variable P : gmap string status -> list string -> Prop.
Variable E : State -> Prop.

Hypothesis after_raise : forall st, over_cache P st -> E st.
Hypothesis check_existing_keeps_it :
  forall link b,
    hoare (over_cache P) (check_existing link b) (ends (over_cache P) E).

Lemma over_cache_keeps {A} (m : M A) :
  keeps scraped_links m -> keeps scrape_calls m ->
  hoare (over_cache P) m (ends (over_cache P) E).
Proof using after_raise.
  intros H1 H2.
  exact (ends_keeps scraped_links scrape_calls P E m H1 H2 after_raise).
Qed.

Lemma link_body_over_cache name link caught :
  hoare (over_cache P) (link_body name link caught)
    (ends (over_cache P) E).
Proof using after_raise check_existing_keeps_it.
  rewrite link_body_eq. ends_auto @over_cache_keeps.
  - apply check_existing_keeps_it.
  - apply over_cache_keeps; apply judge_keeps; reflexivity.
Qed.

Lemma license_body_over_cache name u :
  hoare (over_cache P) (license_body name u) (ends (over_cache P) E).
Proof using after_raise check_existing_keeps_it.
  unfold link_checker.license_body. ends_auto @over_cache_keeps.
  apply hoare_for_each. intros link caught. apply link_body_over_cache.
Qed.

(** An assertion about the cache and the calls of [scrape] that every call
    of [check_existing] keeps holds throughout a run. *)
Lemma main_over_cache all_links :
  hoare (over_cache P) (main all_links) (ends (over_cache P) E).
Proof using after_raise check_existing_keeps_it.
  unfold link_checker.main. ends_auto @over_cache_keeps.
  apply hoare_for_each. intros name u. apply license_body_over_cache.
Qed.

End RunInvariant.

(** What [scrape] returns is a status code or one of its three messages. *)
Lemma scrape_result href s st st' :
  scrape href st = (Ok s, st') -> is_check_result s.
Proof.
  destruct (urlsplit href) as [a|e] eqn:Hs;
    [|rewrite (scrape_raises _ _ _ Hs); discriminate].
  destruct (String.eqb_spec (scheme a) "") as [H1|H1];
    [|destruct (String.eqb_spec (scheme a) "https") as [H2|H2];
      [|destruct (String.eqb_spec (scheme a) "http") as [H3|H3];
        [|destruct (String.eqb_spec (scheme a) "mailto") as [H4|H4]]]].
  5:{ rewrite (scrape_other _ _ _ Hs H1 H2 H3 H4).
      intros [= <- <-]. cbn. auto. }
  4:{ rewrite (scrape_mailto _ _ _ Hs H4). intros [= <- <-]. cbn. auto. }
  all: rewrite (scrape_web _ _ _ Hs) by auto.
  all: destruct (requests_get (requests st) (request_url a));
         cbn; intros [= <- <-]; cbn; auto.
Qed.

Lemma check_existing_results_ok link b :
  hoare (over_cache results_ok) (check_existing link b)
    (ends (over_cache results_ok) (over_cache results_ok)).
Proof.
  intros st Hinv. apply ends_same_intro.
  destruct (check_existing_cases link b st)
    as [[e ->]|[(key & v & _ & _ & ->)|(key & _ & ->)]]; [exact Hinv..|].
  rewrite scrape_and_store_eq.
  pose proof (scrape_keeps scraped_links key
                (fun _ _ => eq_refl) (fun _ _ => eq_refl) st) as Hcache.
  destruct (scrape key st) as [[s|e] st1] eqn:Hscrape; simpl in *.
  - unfold over_cache, results_ok in *. simpl. rewrite Hcache.
    intros k v. rewrite lookup_insert. case_decide.
    + intros [= <-]. eapply scrape_result, Hscrape.
    + apply Hinv.
  - unfold over_cache in *. now rewrite Hcache.
Qed.

(** X9: whatever a run does, every value in [scraped_links] is an [int]
    status code or one of the strings ["Timeout Error"], ["ignore"] and
    ["Invalid protocol detected"]. *)
Theorem cache_holds_check_results
    (v o : bool) (all_links : list string) (k : string) (s : status) :
  scraped_links (snd (main all_links (initial v o))) !! k = Some s ->
  is_check_result s.
Proof.
  assert (over_cache results_ok (initial v o)) as H0.
  { intros k' v' Hk. cbn in Hk. now rewrite lookup_empty in Hk. }
  pose proof (main_over_cache results_ok (over_cache results_ok)
                (fun _ H => H) check_existing_results_ok all_links _ H0) as H.
  apply ends_same in H. apply H.
Qed.

Section CacheExact.

Hypothesis status_code_nonzero :
  forall earlier url body, requests_get earlier url <> Response 0 body.

Lemma check_existing_cache_exact link b :
  hoare (over_cache cache_exact) (check_existing link b)
    (ends (over_cache cache_exact) calls_distinct).
Proof using Type status_code_nonzero.
  intros st [Hinv Hdom].
  destruct (check_existing_cases link b st)
    as [[e ->]|[(key & v & _ & _ & ->)|(key & Hmiss & ->)]]; simpl.
  - now apply cache_inv_distinct.
  - now split.
  - pose proof (scrape_and_store_spec status_code_nonzero key st Hinv Hmiss)
      as H.
    destruct (scrape_and_store _ _ _ key st) as [[s|e] st'].
    + destruct H as (_ & Hcalls & _ & _ & Hstore & Hinv').
      split; [exact Hinv'|]. simpl. rewrite Hstore, Hcalls.
      intros k. rewrite lookup_insert, elem_of_app, list_elem_of_singleton.
      case_decide; [auto|]. intros Hk. left. now apply Hdom.
    + apply H.
Qed.

(** X5: after a run that reaches its end, [scraped_links] holds exactly the
    URLs that [scrape] was called with, one entry for each call. *)
Theorem cache_is_what_was_scraped
    (v o : bool) (all_links : list string) (code : Z) :
  fst (main all_links (initial v o)) = Ok code ->
  let st := snd (main all_links (initial v o)) in
  (forall k, is_Some (scraped_links st !! k) <-> k ∈ scrape_calls st)
  /\ size (scraped_links st) = length (scrape_calls st).
Proof using Type status_code_nonzero.
  intros Hok.
  assert (over_cache cache_exact (initial v o)) as H0.
  { split; [apply initial_cache_inv|].
    intros k [x Hk]. cbn in Hk. now rewrite lookup_empty in Hk. }
  pose proof (main_over_cache cache_exact calls_distinct
                (fun st H => cache_inv_distinct st (proj1 H))
                check_existing_cache_exact all_links _ H0) as H.
  rewrite Hok in H. cbn in H. destruct H as [(_ & Hnodup & Hstored) Hdom].
  cbv zeta.
  assert (forall k, is_Some (scraped_links
                               (snd (main all_links (initial v o))) !! k)
                    <-> k ∈ scrape_calls
                              (snd (main all_links (initial v o)))) as Hiff
    by (intros k; split; [apply Hdom|apply Hstored]).
  split; [exact Hiff|].
  rewrite <- size_dom.
  assert (dom (scraped_links (snd (main all_links (initial v o))))
          = (list_to_set (scrape_calls (snd (main all_links (initial v o))))
             : gset string)) as ->.
  { apply set_eq. intros k.
    rewrite elem_of_dom, elem_of_list_to_set. apply Hiff. }
  now apply size_list_to_set.
Qed.

End CacheExact.

(** *** What is reported *)

Lemma broken_lines_add_stdout e st :
  is_broken_line e = false -> broken_lines (add_stdout e st) = broken_lines st.
Proof.
  intros He. unfold broken_lines. cbn. rewrite List.filter_app. cbn.
  rewrite He. apply app_nil_r.
Qed.

Local Hint Resolve broken_lines_add_stdout : core.

Lemma judge_reports_ok name link s caught :
  hoare (fun st => reports_ok (broken_lines st) (checked st))
    (judge name link s caught)
    (ends (fun st => reports_ok (broken_lines st) (checked st))
          (fun st => reports_ok (broken_lines st) (checked st))).
Proof.
  intros st Hinv. apply ends_same_intro. revert Hinv.
  unfold judge, reports_ok, broken_lines. unfold_m.
  destruct st as [ec v o sl bu so ef rq sc ch]; cbn.
  intros Hinv.
  destruct (not_in_200_ignore s) eqn:Hs, v, o, caught as [|n]; cbn;
    rewrite ?List.filter_app, ?List.map_app; cbn; unfold broken at 2; cbn;
    rewrite Hs, ?app_nil_r, Hinv; reflexivity.
Qed.

Lemma reports_ok_keeps {A} (m : M A) :
  keeps broken_lines m -> keeps checked m ->
  hoare (fun st => reports_ok (broken_lines st) (checked st)) m
    (ends (fun st => reports_ok (broken_lines st) (checked st))
          (fun st => reports_ok (broken_lines st) (checked st))).
Proof.
  intros H1 H2.
  exact (ends_keeps broken_lines checked reports_ok _ m H1 H2 (fun _ H => H)).
Qed.

Lemma link_body_reports_ok name link caught :
  hoare (fun st => reports_ok (broken_lines st) (checked st))
    (link_body name link caught)
    (ends (fun st => reports_ok (broken_lines st) (checked st))
          (fun st => reports_ok (broken_lines st) (checked st))).
Proof.
  rewrite link_body_eq. ends_auto @reports_ok_keeps.
  - apply reports_ok_keeps; apply check_existing_keeps; reflexivity.
  - apply judge_reports_ok.
Qed.

Lemma license_body_reports_ok name u :
  hoare (fun st => reports_ok (broken_lines st) (checked st))
    (license_body name u)
    (ends (fun st => reports_ok (broken_lines st) (checked st))
          (fun st => reports_ok (broken_lines st) (checked st))).
Proof.
  unfold link_checker.license_body. ends_auto @reports_ok_keeps.
  apply hoare_for_each. intros link caught. apply link_body_reports_ok.
Qed.

(** X6: the lines [status - link] that a run prints are the results it got
    that are neither 200 nor ["ignore"], each with its anchor, in the order
    in which the links were checked: no broken link goes unreported and
    nothing else is reported as one. *)
Theorem broken_links_are_reported (v o : bool) (all_links : list string) :
  let st := snd (main all_links (initial v o)) in
  List.filter is_broken_line (stdout st)
  = List.map line_of (List.filter broken (checked st)).
Proof.
  assert (hoare (fun st => reports_ok (broken_lines st) (checked st))
            (main all_links)
            (ends (fun st => reports_ok (broken_lines st) (checked st))
                  (fun st => reports_ok (broken_lines st) (checked st))))
    as Hmain.
  { unfold link_checker.main. ends_auto @reports_ok_keeps.
    apply hoare_for_each. intros name u. apply license_body_reports_ok. }
  specialize (Hmain (initial v o) eq_refl). apply ends_same in Hmain.
  exact Hmain.
Qed.

Lemma judge_file_ok name link s caught :
  hoare (fun st => file_ok (file_of st) (broken_lines st))
    (judge name link s caught)
    (ends (fun st => file_ok (file_of st) (broken_lines st))
          (fun st => file_ok (file_of st) (broken_lines st))).
Proof.
  intros st Hinv. apply ends_same_intro. revert Hinv.
  unfold judge, file_ok, file_of, broken_lines. unfold_m.
  destruct st as [ec v o sl bu so ef rq sc ch]; cbn.
  intros Hinv.
  destruct (not_in_200_ignore s), v, o, caught as [|n]; cbn in *;
    rewrite ?List.filter_app; cbn; rewrite ?app_nil_r, ?Hinv; reflexivity.
Qed.

Lemma file_ok_keeps {A} (m : M A) :
  keeps file_of m -> keeps broken_lines m ->
  hoare (fun st => file_ok (file_of st) (broken_lines st)) m
    (ends (fun st => file_ok (file_of st) (broken_lines st))
          (fun st => file_ok (file_of st) (broken_lines st))).
Proof.
  intros H1 H2.
  exact (ends_keeps file_of broken_lines file_ok _ m H1 H2 (fun _ H => H)).
Qed.

Lemma link_body_file_ok name link caught :
  hoare (fun st => file_ok (file_of st) (broken_lines st))
    (link_body name link caught)
    (ends (fun st => file_ok (file_of st) (broken_lines st))
          (fun st => file_ok (file_of st) (broken_lines st))).
Proof.
  rewrite link_body_eq. ends_auto @file_ok_keeps.
  - apply file_ok_keeps; apply check_existing_keeps; reflexivity.
  - apply judge_file_ok.
Qed.

Lemma license_body_file_ok name u :
  hoare (fun st => file_ok (file_of st) (broken_lines st))
    (license_body name u)
    (ends (fun st => file_ok (file_of st) (broken_lines st))
          (fun st => file_ok (file_of st) (broken_lines st))).
Proof.
  unfold link_checker.license_body. ends_auto @file_ok_keeps.
  apply hoare_for_each. intros link caught. apply link_body_file_ok.
Qed.

(** X7: with [--output-error] the error file receives every broken-link line
    that is printed, in the same order; without the option nothing is
    written to it. *)
Theorem error_file_follows_stdout (v o : bool) (all_links : list string) :
  let st := snd (main all_links (initial v o)) in
  if o
  then List.filter is_broken_line (errfile st)
       = List.filter is_broken_line (stdout st)
  else errfile st = [].
Proof.
  assert (hoare (fun st => file_ok (file_of st) (broken_lines st))
            (main all_links)
            (ends (fun st => file_ok (file_of st) (broken_lines st))
                  (fun st => file_ok (file_of st) (broken_lines st))))
    as Hmain.
  { unfold link_checker.main. ends_auto @file_ok_keeps.
    apply hoare_for_each. intros name u. apply license_body_file_ok. }
  assert (keeps output_err (main all_links)) as Hflag.
  { unfold link_checker.main. keeps_auto.
    apply keeps_for_each. intros name u.
    unfold link_checker.license_body. keeps_auto.
    apply keeps_for_each. intros link caught. rewrite link_body_eq.
    keeps_auto.
    - apply check_existing_keeps; reflexivity.
    - apply judge_keeps; reflexivity. }
  assert (file_ok (file_of (initial v o)) (broken_lines (initial v o))) as H0
    by (unfold file_ok; cbn; now destruct o).
  specialize (Hmain (initial v o) H0). apply ends_same in Hmain.
  specialize (Hflag (initial v o)). cbv zeta.
  unfold file_ok, file_of in Hmain. cbn [fst snd] in Hmain.
  rewrite Hflag in Hmain. exact Hmain.
Qed.

(** *** The document loop, step by step *)

Lemma license_body_eq name st :
  license_body name tt st
  = let st1 := add_stdout (NowChecking name) (add_stdout Blank st) in
    match index_last (py_split "." name) with
    | Raise e => (Raise e, st1)
    | Ok ext =>
        if negb (String.eqb ext "html")
        then (Ok tt, if verbose st
                     then add_stdout (SkipNonHtml name) st1 else st1)
        else
          match create_base_link (drop_last5 name) with
          | Raise e => (Raise e, st1)
          | Ok b =>
              match requests_get (requests st) (base +:+ name) with
              | Response _ content =>
                  let links := find_all_a content in
                  match for_each (link_body name) links 0%nat
                          (at_links name b (length links) st) with
                  | (Ok _, st') => (Ok tt, st')
                  | (Raise e, st') => (Raise e, st')
                  end
              | _ => (Raise RequestException,
                      add_request (base +:+ name) (at_fetch name b st))
              end
          end
    end.
Proof.
  unfold link_checker.license_body, at_links, at_fetch. unfold_m.
  destruct st as [ec v o sl bu so ef rq sc ch].
  cbn -[String.append base for_each create_base_link drop_last5 py_split
        index_last].
  destruct (index_last (py_split "." name)) as [ext|e]; [|reflexivity].
  destruct (String.eqb ext "html");
    cbn -[String.append base for_each create_base_link drop_last5].
  2:{ destruct v; reflexivity. }
  destruct (create_base_link (drop_last5 name)) as [b|e]; [|reflexivity].
  cbn -[String.append base for_each].
  destruct (requests_get rq (base +:+ name)); [|reflexivity..].
  destruct v; cbn -[String.append base for_each];
    destruct (for_each _ _ _ _) as [[c|e] st']; reflexivity.
Qed.

(** *** How many requests a run makes *)

Lemma excess_le_keeps {A} n (m : M A) :
  keeps requests m -> keeps scrape_calls m ->
  hoare (fun st => excess_le n (requests st) (scrape_calls st)) m
    (ends (fun st => excess_le n (requests st) (scrape_calls st))
          (fun st => excess_le n (requests st) (scrape_calls st))).
Proof.
  intros H1 H2.
  exact (ends_keeps requests scrape_calls (excess_le n) _ m H1 H2
           (fun _ H => H)).
Qed.

Lemma check_existing_excess n link b :
  hoare (fun st => excess_le n (requests st) (scrape_calls st))
    (check_existing link b)
    (ends (fun st => excess_le n (requests st) (scrape_calls st))
          (fun st => excess_le n (requests st) (scrape_calls st))).
Proof.
  intros st Hst. apply ends_same_intro. unfold excess_le in *.
  destruct (check_existing_logs link b st)
    as [[-> ->]|(key & -> & [->|[u ->]])]; rewrite ?length_app; cbn; lia.
Qed.

Lemma link_body_excess n name link caught :
  hoare (fun st => excess_le n (requests st) (scrape_calls st))
    (link_body name link caught)
    (ends (fun st => excess_le n (requests st) (scrape_calls st))
          (fun st => excess_le n (requests st) (scrape_calls st))).
Proof.
  rewrite link_body_eq. ends_auto @excess_le_keeps.
  - apply check_existing_excess.
  - apply excess_le_keeps; apply judge_keeps; reflexivity.
Qed.

(** A document costs at most one request beyond those of [scrape]. *)
Lemma license_body_excess n name u st :
  excess_le n (requests st) (scrape_calls st) ->
  excess_le (n + 1) (requests (snd (license_body name u st)))
    (scrape_calls (snd (license_body name u st))).
Proof.
  intros Hst. destruct u. rewrite license_body_eq. cbv zeta.
  assert (forall m, excess_le m (requests st) (scrape_calls st) ->
                    excess_le (m + 1) (requests st) (scrape_calls st)) as Hup
    by (unfold excess_le; intros; lia).
  destruct (index_last (py_split "." name)) as [ext|e]; [|now apply Hup].
  destruct (negb (String.eqb ext "html")).
  { destruct (verbose st); now apply Hup. }
  destruct (create_base_link (drop_last5 name)) as [b|e]; [|now apply Hup].
  assert (forall k, excess_le (n + 1) (requests (at_links name b k st))
                      (scrape_calls (at_links name b k st))) as Hloop.
  { intros k. unfold at_links, at_fetch, excess_le in *.
    destruct (verbose st); cbn; rewrite length_app; cbn; lia. }
  destruct (requests_get (requests st) (base +:+ name)) as [c content| |].
  - pose proof (hoare_for_each _ _ (link_body name) (find_all_a content)
                  0%nat (fun x a => link_body_excess (n + 1) name x a)
                  _ (Hloop (length (find_all_a content)))) as H.
    apply ends_same in H.
    destruct (for_each _ _ _ _) as [[k|e] st']; exact H.
  - unfold at_fetch, excess_le in *. cbn. rewrite length_app. cbn. lia.
  - unfold at_fetch, excess_le in *. cbn. rewrite length_app. cbn. lia.
Qed.

Lemma documents_excess all_links :
  forall n u st,
    excess_le n (requests st) (scrape_calls st) ->
    excess_le (n + Z.of_nat (length all_links))
      (requests (snd (for_each license_body all_links u st)))
      (scrape_calls (snd (for_each license_body all_links u st))).
Proof.
  induction all_links as [|name rest IH]; intros n u st Hst.
  - cbn. unfold excess_le in *. lia.
  - rewrite for_each_cons.
    pose proof (license_body_excess n name u st Hst) as H1.
    destruct (license_body name u st) as [[u'|e] st1]; cbn [snd] in H1.
    + specialize (IH (n + 1) u' st1 H1).
      unfold excess_le in *. cbn [length]. lia.
    + cbn [snd length]. unfold excess_le in *. lia.
Qed.

(** After the document loop [main] only prints and reads the flag. *)
Lemma main_logs all_links st :
  requests (snd (main all_links st))
  = requests (snd (for_each license_body all_links tt st))
  /\ scrape_calls (snd (main all_links st))
     = scrape_calls (snd (for_each license_body all_links tt st)).
Proof.
  unfold link_checker.main. unfold_m.
  destruct (for_each license_body all_links tt st) as [[u|e] st1];
    [|split; reflexivity].
  destruct (output_err st1); split; reflexivity.
Qed.

(** *** The exceptions that end a run *)

Lemma index_last_raises {A} (xs : list A) e :
  index_last xs = Raise e -> e = IndexError.
Proof.
  unfold index_last. destruct (List.rev xs); [|discriminate]. congruence.
Qed.

Lemma create_base_link_raises filename e :
  create_base_link filename = Raise e -> e = IndexError.
Proof.
  unfold create_base_link.
  destruct (py_split "_" filename) as [|p0 [|p1 rest]];
    [cbn; congruence..|].
  change (index (p0 :: p1 :: rest) 0) with (Ok p0).
  change (index (p0 :: p1 :: rest) 1) with (Ok p1).
  cbn [bindR].
  destruct rest as [|p2 [|p3 [|p4 rest]]];
    [| | |rewrite index_last_last by discriminate].
  all: cbn -[String.append List.last]; rewrite ?andb_false_r.
  all: destruct (String.eqb p0 "samplingplus"); cbn -[String.append List.last];
         discriminate.
Qed.

Section Exceptions.

(** [urlsplit] and [urljoin] raise nothing but [ValueError]. *)
Hypothesis urlsplit_raises :
  forall href e, urlsplit href = Raise e -> e = ValueError.
Hypothesis urljoin_raises :
  forall b href e, urljoin b href = Raise e -> e = ValueError.

Lemma scrape_raises_only href st :
  raises_only expected_exn (fst (scrape href st)).
Proof using Type urlsplit_raises.
  destruct (urlsplit href) as [a|e] eqn:Hs.
  2:{ rewrite (scrape_raises _ _ _ Hs). cbn.
      right; left. eapply urlsplit_raises, Hs. }
  destruct (String.eqb_spec (scheme a) "") as [H1|H1];
    [|destruct (String.eqb_spec (scheme a) "https") as [H2|H2];
      [|destruct (String.eqb_spec (scheme a) "http") as [H3|H3];
        [|destruct (String.eqb_spec (scheme a) "mailto") as [H4|H4]]]].
  5:{ rewrite (scrape_other _ _ _ Hs H1 H2 H3 H4). exact I. }
  4:{ rewrite (scrape_mailto _ _ _ Hs H4). exact I. }
  all: rewrite (scrape_web _ _ _ Hs) by auto; cbn.
  all: destruct (requests_get (requests st) (request_url a)); cbn;
         unfold expected_exn; auto.
Qed.

Lemma check_existing_raises_only link href b bu st :
  tag_href link = Some href -> base_url st = Some bu ->
  raises_only expected_exn (fst (check_existing link b st)).
Proof using Type urlsplit_raises urljoin_raises.
  intros Hh Hb. rewrite check_existing_eq, Hh.
  destruct (urlsplit href) as [a|e] eqn:Hs.
  2:{ cbn. right; left. eapply urlsplit_raises, Hs. }
  assert (forall key,
            raises_only expected_exn
              (fst (scrape_and_store urlsplit geturl requests_get key st)))
    as Hmiss.
  { intros key. rewrite scrape_and_store_eq.
    pose proof (scrape_raises_only key st) as H.
    destruct (scrape key st) as [[s|e] st1]; exact H. }
  destruct (is_relative a) eqn:Hrel.
  - rewrite (create_absolute_link_relative _ _ _ Hrel), Hb.
    destruct (urljoin bu href) as [key|e] eqn:Hj.
    + destruct (scraped_links st !! key) as [x|]; [|apply Hmiss].
      destruct (truthy x); [exact I|apply Hmiss].
    + cbn. right; left. eapply urljoin_raises, Hj.
  - rewrite (create_absolute_link_absolute _ _ _ Hrel).
    destruct (scraped_links st !! href) as [x|]; [|apply Hmiss].
    destruct (truthy x); [exact I|apply Hmiss].
Qed.

Lemma link_body_raises_only name link caught bu st :
  base_url st = Some bu ->
  raises_only expected_exn (fst (link_body name link caught st)).
Proof using Type urlsplit_raises urljoin_raises.
  intros Hb.
  destruct (tag_href link) as [href|] eqn:Hh;
    [|now rewrite (link_body_no_href _ _ _ _ Hh)].
  destruct (String.eqb_spec href "") as [->|Hne].
  { rewrite link_body_eq, Hh. cbn. now left. }
  destruct (starts_with_hash href) eqn:Hf;
    [now rewrite (link_body_fragment _ _ _ _ _ Hh Hf)|].
  rewrite (link_body_checked _ _ _ _ _ Hh Hne Hf).
  unfold bind at 1. unfold read_base_url, bind, gets, ret. rewrite Hb.
  pose proof (check_existing_raises_only link href bu bu st Hh Hb) as H.
  destruct (check_existing link bu st) as [[s|e] st1]; [|exact H].
  pose proof (judge_spec name link s caught st1) as Hj.
  destruct (judge name link s caught st1) as [r st2].
  destruct Hj as (-> & _). exact I.
Qed.

Lemma links_raise_only name links :
  forall caught bu st,
    base_url st = Some bu ->
    raises_only expected_exn (fst (for_each (link_body name) links caught st)).
Proof using Type urlsplit_raises urljoin_raises.
  induction links as [|link links IH]; intros caught bu st Hb.
  - exact I.
  - rewrite for_each_cons.
    pose proof (link_body_raises_only name link caught bu st Hb) as H.
    pose proof (link_body_base_url_is bu name link caught st Hb) as Hb'.
    destruct (link_body name link caught st) as [[c|e] st1]; [|exact H].
    exact (IH c bu st1 Hb').
Qed.

Lemma license_body_raises_only name u st :
  raises_only expected_exn (fst (license_body name u st)).
Proof using Type urlsplit_raises urljoin_raises.
  destruct u. rewrite license_body_eq. cbv zeta.
  destruct (index_last (py_split "." name)) as [ext|e] eqn:He.
  2:{ cbn. left. eapply index_last_raises, He. }
  destruct (negb (String.eqb ext "html")); [exact I|].
  destruct (create_base_link (drop_last5 name)) as [b|e] eqn:Hc.
  2:{ cbn. left. eapply create_base_link_raises, Hc. }
  destruct (requests_get (requests st) (base +:+ name)) as [c content| |].
  2,3: cbn; right; right; reflexivity.
  pose proof (links_raise_only name (find_all_a content) 0%nat b
                (at_links name b (length (find_all_a content)) st)) as H.
  assert (base_url (at_links name b (length (find_all_a content)) st)
          = Some b) as Hb
    by (unfold at_links, at_fetch; now destruct (verbose st)).
  specialize (H Hb).
  destruct (for_each _ _ _ _) as [[k|e] st']; exact H.
Qed.

Lemma documents_raise_only all_links :
  forall u st,
    raises_only expected_exn (fst (for_each license_body all_links u st)).
Proof using Type urlsplit_raises urljoin_raises.
  induction all_links as [|name rest IH]; intros u st.
  - exact I.
  - rewrite for_each_cons.
    pose proof (license_body_raises_only name u st) as H.
    destruct (license_body name u st) as [[u'|e] st1]; [apply IH|exact H].
Qed.

End Exceptions.

(** *** What a verbose run prints *)

Lemma noise_add_stdout e st :
  is_note e = false -> is_errors_header e = false ->
  noise (add_stdout e st) = noise st.
Proof.
  intros H1 H2. unfold noise. cbn. rewrite !List.filter_app. cbn.
  now rewrite H1, H2, !app_nil_r.
Qed.

Local Hint Resolve noise_add_stdout : core.

Lemma verbosity_ok_keeps {A} (m : M A) :
  keeps verbose m -> keeps noise m ->
  hoare (fun st => verbosity_ok (verbose st) (noise st)) m
    (ends (fun st => verbosity_ok (verbose st) (noise st))
          (fun st => verbosity_ok (verbose st) (noise st))).
Proof.
  intros H1 H2.
  exact (ends_keeps verbose noise verbosity_ok _ m H1 H2 (fun _ H => H)).
Qed.

(** [verbose_print] prints only if the flag is set. *)
Lemma verbose_print_verbosity_ok e :
  is_errors_header e = false ->
  hoare (fun st => verbosity_ok (verbose st) (noise st)) (verbose_print e)
    (ends (fun st => verbosity_ok (verbose st) (noise st))
          (fun st => verbosity_ok (verbose st) (noise st))).
Proof.
  intros He st Hinv. apply ends_same_intro. revert Hinv.
  unfold verbose_print, print, verbosity_ok, noise. unfold_m.
  destruct st as [ec v o sl bu so ef rq sc ch]; cbn.
  destruct v; cbn; [|auto].
  rewrite List.filter_app. cbn. rewrite He. intros ->. reflexivity.
Qed.

Lemma judge_verbosity_ok name link s caught :
  hoare (fun st => verbosity_ok (verbose st) (noise st))
    (judge name link s caught)
    (ends (fun st => verbosity_ok (verbose st) (noise st))
          (fun st => verbosity_ok (verbose st) (noise st))).
Proof.
  intros st Hinv. apply ends_same_intro. revert Hinv.
  unfold judge, verbosity_ok, noise. unfold_m.
  destruct st as [ec v o sl bu so ef rq sc ch]; cbn.
  intros Hinv.
  destruct (not_in_200_ignore s), v, o, caught as [|n]; cbn in *;
    rewrite ?List.filter_app; cbn; rewrite ?app_nil_r, ?Hinv; reflexivity.
Qed.

Ltac notes_auto :=
  ends_auto @verbosity_ok_keeps;
  try (apply verbose_print_verbosity_ok; reflexivity).

Lemma link_body_verbosity_ok name link caught :
  hoare (fun st => verbosity_ok (verbose st) (noise st))
    (link_body name link caught)
    (ends (fun st => verbosity_ok (verbose st) (noise st))
          (fun st => verbosity_ok (verbose st) (noise st))).
Proof.
  rewrite link_body_eq. notes_auto.
  - apply verbosity_ok_keeps; apply check_existing_keeps; reflexivity.
  - apply judge_verbosity_ok.
Qed.

Lemma license_body_verbosity_ok name u :
  hoare (fun st => verbosity_ok (verbose st) (noise st))
    (license_body name u)
    (ends (fun st => verbosity_ok (verbose st) (noise st))
          (fun st => verbosity_ok (verbose st) (noise st))).
Proof.
  unfold link_checker.license_body. notes_auto.
  apply hoare_for_each. intros link caught. apply link_body_verbosity_ok.
Qed.

(** X12: the notes of [verbose_print] (skipped files and anchors, the
    number of links, the heading of the warnings) appear only in a verbose
    run, and the heading ["Errors:"] only in a run that is not verbose. *)
Theorem notes_only_when_verbose (v o : bool) (all_links : list string) :
  let st := snd (main all_links (initial v o)) in
  if v
  then List.filter is_errors_header (stdout st) = []
  else List.filter is_note (stdout st) = [].
Proof.
  assert (hoare (fun st => verbosity_ok (verbose st) (noise st))
            (main all_links)
            (ends (fun st => verbosity_ok (verbose st) (noise st))
                  (fun st => verbosity_ok (verbose st) (noise st))))
    as Hmain.
  { unfold link_checker.main. notes_auto.
    apply hoare_for_each. intros name u. apply license_body_verbosity_ok. }
  assert (keeps verbose (main all_links)) as Hflag.
  { unfold link_checker.main. keeps_auto.
    apply keeps_for_each. intros name u.
    unfold link_checker.license_body. keeps_auto.
    apply keeps_for_each. intros link caught. rewrite link_body_eq.
    keeps_auto.
    - apply check_existing_keeps; reflexivity.
    - apply judge_keeps; reflexivity. }
  assert (verbosity_ok (verbose (initial v o)) (noise (initial v o))) as H0
    by (unfold verbosity_ok; cbn; now destruct v).
  specialize (Hmain (initial v o) H0). apply ends_same in Hmain.
  specialize (Hflag (initial v o)). cbv zeta.
  unfold verbosity_ok, noise in Hmain. cbn [fst snd] in Hmain.
  rewrite Hflag in Hmain. exact Hmain.
Qed.

(** *** The whole run *)

Variable find_listing : string -> option (list (option string)).

Local Abbreviation get_all_license :=
  (toplevel.get_all_license requests_get find_listing).
Local Abbreviation document_body :=
  (toplevel.document_body urlsplit geturl urljoin requests_get find_all_a).
Local Abbreviation script :=
  (toplevel.script urlsplit geturl urljoin requests_get find_all_a
     find_listing).
Local Abbreviation listing := (toplevel.listing requests_get find_listing).

Lemma get_all_license_eq st :
  get_all_license st
  = let st0 := add_request toplevel.listing_url st in
    match requests_get (requests st) toplevel.listing_url with
    | Response _ text =>
        match find_listing text with
        | Some links =>
            (Ok links, add_stdout (FilesToCheck (length links)) st0)
        | None => (Raise AttributeError, st0)
        end
    | _ => (Raise RequestException, st0)
    end.
Proof.
  unfold toplevel.get_all_license. unfold_m. cbn.
  destruct (requests_get (requests st) toplevel.listing_url);
    [|reflexivity..].
  destruct (find_listing content); reflexivity.
Qed.

Lemma script_eq st :
  script st
  = match get_all_license st with
    | (Ok links, st0) =>
        match for_each document_body links tt st0 with
        | (Ok _, st1) =>
            (Ok (err_code st1),
             if output_err st1 then add_stdout ErrorFilePresent st1 else st1)
        | (Raise e, st1) => (Raise e, st1)
        end
    | (Raise e, st0) => (Raise e, st0)
    end.
Proof.
  unfold toplevel.script. unfold bind at 1.
  destruct (get_all_license st) as [[links|e] st0]; [|reflexivity].
  unfold_m.
  destruct (for_each document_body links tt st0) as [[u|e] st1];
    [|reflexivity].
  destruct (output_err st1); reflexivity.
Qed.

(** When every entry of the listing has a name, the document loop of the
    script is the loop of [main] over the names. *)
Lemma for_each_document_body names :
  forall u st,
    for_each document_body (List.map Some names) u st
    = for_each license_body names u st.
Proof.
  induction names as [|name names IH]; intros u st; [reflexivity|].
  cbn [List.map]. rewrite !for_each_cons.
  change (document_body (Some name) u st) with (license_body name u st).
  destruct (license_body name u st) as [[u'|e] st1]; [apply IH|reflexivity].
Qed.

Lemma script_is_main names st st0 :
  get_all_license st = (Ok (List.map Some names), st0) ->
  script st = main names st0.
Proof.
  intros Hl. rewrite script_eq, Hl, for_each_document_body.
  unfold link_checker.main. unfold_m.
  destruct (for_each license_body names tt st0) as [[u|e] st1];
    [|reflexivity].
  destruct (output_err st1); reflexivity.
Qed.

(** *** The error flag and the exit status of a whole run *)

Lemma document_body_flag_inv licens u :
  hoare flag_inv (document_body licens u) (ends flag_inv flag_inv).
Proof.
  destruct licens as [name|]; [apply license_body_flag_inv|].
  intros st Hst. exact Hst.
Qed.

Lemma document_body_flag_up licens u :
  hoare flag_up (document_body licens u) (ends flag_up flag_up).
Proof.
  destruct licens as [name|]; [apply license_body_flag_up|].
  intros st Hst. exact Hst.
Qed.

Lemma script_flag_inv v o : flag_inv (snd (script (initial v o))).
Proof.
  rewrite script_eq, get_all_license_eq. cbv zeta.
  destruct (requests_get (requests (initial v o)) toplevel.listing_url)
    as [c text| |]; [|reflexivity..].
  destruct (find_listing text) as [links|]; [|reflexivity].
  pose proof (hoare_for_each flag_inv flag_inv document_body links tt
                (fun x a => document_body_flag_inv x a)
                (add_stdout (FilesToCheck (length links))
                   (add_request toplevel.listing_url (initial v o)))
                eq_refl) as H.
  apply ends_same in H.
  destruct (for_each document_body links tt _) as [[u|e] st1];
    cbn [snd] in *; [|exact H].
  now destruct (output_err st1).
Qed.

Lemma not_in_200_ignore_decide s :
  not_in_200_ignore s
  = if decide (s = StatusCode 200 \/ s = StatusStr "ignore")
    then false else true.
Proof.
  pose proof (not_in_200_ignore_true s) as H.
  destruct (decide (s = StatusCode 200 \/ s = StatusStr "ignore"))
    as [Hd|Hd], (not_in_200_ignore s); try reflexivity.
  - destruct (proj1 H eq_refl) as [H1 H2]. destruct Hd; contradiction.
  - assert (false = true) as Hf; [|discriminate Hf].
    apply H. split; intros ->; apply Hd; auto.
Qed.

(** A link that is not skipped is handed to [check_existing] with the
    global [base_url]; what [check_existing] returns decides the flag. *)
Lemma link_body_checked_step name link href caught b st0 :
  tag_href link = Some href -> href <> "" ->
  starts_with_hash href = false -> base_url st0 = Some b ->
  match check_existing link b st0 with
  | (Ok s, st1) =>
      let ok := decide (s = StatusCode 200 \/ s = StatusStr "ignore") in
      exists st2,
        link_body name link caught st0
        = (Ok (if ok then caught else S caught), st2)
        /\ err_code st2 = (if ok then err_code st0 else 1)
        /\ checked st2 = checked st0 ++ [(link, s)]
        /\ scraped_links st2 = scraped_links st1
        /\ scrape_calls st2 = scrape_calls st1
        /\ requests st2 = requests st1
  | (Raise e, st1) => link_body name link caught st0 = (Raise e, st1)
  end.
Proof.
  intros Hh Hne Hs Hb. rewrite (link_body_checked _ _ _ _ _ Hh Hne Hs).
  unfold bind at 1. unfold read_base_url, bind, gets, ret. rewrite Hb.
  destruct (check_existing_keeps_flag link b) as [He Hc].
  specialize (He st0). specialize (Hc st0).
  destruct (check_existing link b st0) as [[s|e] st1]; [|reflexivity].
  cbn [snd] in He, Hc. cbv zeta.
  pose proof (judge_spec name link s caught st1) as H.
  pose proof (judge_keeps scraped_links name link s caught
                (fun _ _ => eq_refl) (fun _ _ => eq_refl)
                (fun _ _ _ => eq_refl) (fun _ _ => eq_refl) st1) as K1.
  pose proof (judge_keeps scrape_calls name link s caught
                (fun _ _ => eq_refl) (fun _ _ => eq_refl)
                (fun _ _ _ => eq_refl) (fun _ _ => eq_refl) st1) as K2.
  pose proof (judge_keeps requests name link s caught
                (fun _ _ => eq_refl) (fun _ _ => eq_refl)
                (fun _ _ _ => eq_refl) (fun _ _ => eq_refl) st1) as K3.
  destruct (judge name link s caught st1) as [r st2]. cbn [snd] in *.
  destruct H as (-> & Hck & Herr). exists st2.
  rewrite Hck, Herr, Hc, He, not_in_200_ignore_decide.
  destruct (decide (s = StatusCode 200 \/ s = StatusStr "ignore"));
    repeat split; assumption.
Qed.

(** A link that is skipped leaves the flag and the results alone. *)
Lemma link_body_skipped_step name link caught st0 :
  not_skipped link = false ->
  err_code (snd (link_body name link caught st0)) = err_code st0
  /\ checked (snd (link_body name link caught st0)) = checked st0.
Proof.
  unfold not_skipped. intros Hs.
  destruct (tag_href link) as [href|] eqn:Hh.
  - apply negb_false_iff in Hs.
    rewrite (link_body_fragment _ _ _ _ _ Hh Hs). unfold skip_note.
    now destruct (verbose st0).
  - rewrite (link_body_no_href _ _ _ _ Hh). now destruct (verbose st0).
Qed.

(** C6 (amended): the exit status of a run of the whole script.  A run that
    reaches [sys.exit] exits with the error flag, so with 1 if and only if
    some link that was checked gave a result other than 200 and ["ignore"],
    and with 0 otherwise; a run that an exception ends exits with 1 whatever
    the results were.  The flag starts at 0.  A link that is not skipped is
    handed to [check_existing], and the flag is set to 1 exactly when the
    result that comes back is neither 200 nor ["ignore"]; a skipped link
    leaves it alone; once it is 1 no link and no document resets it. *)
Theorem exit_status_of_run (v o : bool) :
  let '(r, st) := script (initial v o) in
  let broken_seen :=
    exists link s, (link, s) ∈ checked st
      /\ s <> StatusCode 200 /\ s <> StatusStr "ignore" in
  err_code (initial v o) = 0
  /\ (forall code, r = Ok code -> exit_status r = err_code st)
  /\ (forall e, r = Raise e -> exit_status r = 1)
  /\ (err_code st = 1 <-> broken_seen)
  /\ (err_code st = 0 <-> ~ broken_seen)
  /\ (exit_status r = 1 <-> broken_seen \/ exists e, r = Raise e)
  /\ (exit_status r = 0 <-> ~ broken_seen /\ exists code, r = Ok code)
  /\ (forall name link href caught b st0,
        tag_href link = Some href -> href <> "" ->
        starts_with_hash href = false -> base_url st0 = Some b ->
        match check_existing link b st0 with
        | (Ok s, st1) =>
            let ok := decide (s = StatusCode 200 \/ s = StatusStr "ignore") in
            exists st2,
              link_body name link caught st0
              = (Ok (if ok then caught else S caught), st2)
              /\ err_code st2 = (if ok then err_code st0 else 1)
              /\ checked st2 = checked st0 ++ [(link, s)]
              /\ scraped_links st2 = scraped_links st1
              /\ scrape_calls st2 = scrape_calls st1
              /\ requests st2 = requests st1
        | (Raise e, st1) => link_body name link caught st0 = (Raise e, st1)
        end)
  /\ (forall name link caught st0,
        not_skipped link = false ->
        err_code (snd (link_body name link caught st0)) = err_code st0
        /\ checked (snd (link_body name link caught st0)) = checked st0)
  /\ (forall name link caught st0,
        err_code st0 = 1 ->
        err_code (snd (link_body name link caught st0)) = 1)
  /\ (forall licens st0,
        err_code st0 = 1 ->
        err_code (snd (document_body licens tt st0)) = 1).
Proof.
  pose proof (script_flag_inv v o) as Hinv.
  pose proof (script_eq (initial v o)) as Heq.
  destruct (script (initial v o)) as [r st]. cbn [snd] in Hinv. cbv zeta.
  unfold flag_inv, flag_ok in Hinv.
  pose proof (existsb_broken (checked st)) as Hex.
  assert (forall code, r = Ok code -> code = err_code st) as Hret.
  { intros code ->.
    destruct (get_all_license (initial v o)) as [[links|e] st0];
      [|discriminate].
    destruct (for_each document_body links tt st0) as [[u|e] st1];
      [|discriminate].
    injection Heq as -> ->. now destruct (output_err st1). }
  assert (err_code st = 1 <->
          exists link s, (link, s) ∈ checked st
            /\ s <> StatusCode 200 /\ s <> StatusStr "ignore") as Hone.
  { rewrite <- Hex, Hinv. destruct (existsb broken (checked st)).
    - split; reflexivity.
    - split; discriminate. }
  assert (err_code st = 0 \/ err_code st = 1) as Hbit
    by (rewrite Hinv; destruct (existsb broken (checked st)); auto).
  split; [reflexivity|].
  split; [intros code Hr; rewrite Hr; cbn; now apply Hret|].
  split; [intros e ->; reflexivity|].
  split; [exact Hone|].
  split.
  { rewrite <- Hone. destruct Hbit as [H0|H1]; rewrite ?H0, ?H1;
      split; intros; try reflexivity; try discriminate; tauto. }
  split.
  { rewrite <- Hone. destruct r as [code|e]; cbn.
    - rewrite (Hret code eq_refl). split; [auto|].
      intros [H|[e He]]; [exact H|discriminate He].
    - split; [eauto|reflexivity]. }
  split.
  { rewrite <- Hone. destruct r as [code|e]; cbn.
    - rewrite (Hret code eq_refl). split.
      + intros H0. split; [rewrite H0; discriminate|eauto].
      + intros [Hn _]. destruct Hbit; [assumption|contradiction].
    - split; [discriminate|]. intros [_ [code Hc]]. discriminate Hc. }
  split; [apply link_body_checked_step|].
  split; [apply link_body_skipped_step|].
  split.
  - intros name link caught st0 H0.
    exact (ends_same _ _ _ (link_body_flag_up name link caught st0 H0)).
  - intros licens st0 H0.
    exact (ends_same _ _ _ (document_body_flag_up licens tt st0 H0)).
Qed.

(** *** How many requests a whole run makes *)

Lemma document_body_excess n licens u st :
  excess_le n (requests st) (scrape_calls st) ->
  excess_le (n + 1) (requests (snd (document_body licens u st)))
    (scrape_calls (snd (document_body licens u st))).
Proof.
  destruct licens as [name|]; [apply license_body_excess|].
  cbn. unfold excess_le. lia.
Qed.

Lemma listing_excess links :
  forall n u st,
    excess_le n (requests st) (scrape_calls st) ->
    excess_le (n + Z.of_nat (length links))
      (requests (snd (for_each document_body links u st)))
      (scrape_calls (snd (for_each document_body links u st))).
Proof.
  induction links as [|licens rest IH]; intros n u st Hst.
  - cbn. unfold excess_le in *. lia.
  - rewrite for_each_cons.
    pose proof (document_body_excess n licens u st Hst) as H1.
    destruct (document_body licens u st) as [[u'|e] st1]; cbn [snd] in H1.
    + specialize (IH (n + 1) u' st1 H1).
      unfold excess_le in *. cbn [length]. lia.
    + cbn [snd length]. unfold excess_le in *. lia.
Qed.

(** X10: a run of the whole script makes at most one request for the
    listing, one for each entry of the listing, and one for each call of
    [scrape]. *)
Theorem requests_of_run_bounded (v o : bool) :
  let st := snd (script (initial v o)) in
  (length (requests st)
   <= 1 + length (listing []) + length (scrape_calls st))%nat.
Proof.
  cbv zeta. rewrite script_eq, get_all_license_eq. cbv zeta.
  unfold toplevel.listing. cbn [requests initial].
  destruct (requests_get [] toplevel.listing_url) as [c text| |];
    [|cbn; lia..].
  destruct (find_listing text) as [links|]; [|cbn; lia].
  pose proof (listing_excess links 1 tt
                (add_stdout (FilesToCheck (length links))
                   (add_request toplevel.listing_url (initial v o))))
    as H.
  unfold excess_le in H at 1. cbn in H. specialize (H ltac:(lia)).
  unfold excess_le in H.
  destruct (for_each document_body links tt _) as [[u|e] st1];
    cbn [snd] in *.
  - destruct (output_err st1); cbn; lia.
  - lia.
Qed.

(** *** The exceptions that end a whole run *)

Section RunExceptions.

(** [urlsplit] and [urljoin] raise nothing but [ValueError]. *)
Hypothesis urlsplit_raises :
  forall href e, urlsplit href = Raise e -> e = ValueError.
Hypothesis urljoin_raises :
  forall b href e, urljoin b href = Raise e -> e = ValueError.

Lemma listing_raises_only links :
  forall u st,
    raises_only
      (fun e => expected_exn e \/ (e = AttributeError /\ None ∈ links))
      (fst (for_each document_body links u st)).
Proof using Type urlsplit_raises urljoin_raises.
  induction links as [|licens rest IH]; intros u st.
  - exact I.
  - rewrite for_each_cons. destruct licens as [name|].
    + change (document_body (Some name) u st) with (license_body name u st).
      pose proof (license_body_raises_only urlsplit_raises urljoin_raises
                    name u st) as H.
      destruct (license_body name u st) as [[u'|e] st1].
      * specialize (IH u' st1).
        destruct (fst (for_each document_body rest u' st1)) as [x|e];
          [exact I|].
        cbn in *. destruct IH as [IH|[IH1 IH2]]; [now left|].
        right. split; [exact IH1|]. apply elem_of_cons. now right.
      * cbn in *. now left.
    + cbn. right. split; [reflexivity|]. apply elem_of_cons. now left.
Qed.

(** X8: given that [urlsplit] and [urljoin] raise nothing but
    [ValueError], a run of the whole script, from any state, never ends
    with [NameError] (the global [base_url] is assigned before any link is
    resolved) or with [KeyError] (an anchor without [href] never reaches
    [check_existing]); and it ends with [AttributeError] only if the listing
    page has no table body or an entry of the listing has no string. *)
Theorem script_exceptions (st : State) (e : exn) :
  fst (script st) = Raise e ->
  e <> NameError /\ e <> KeyError
  /\ (e = AttributeError ->
      exists c text,
        requests_get (requests st) toplevel.listing_url = Response c text
        /\ (find_listing text = None
            \/ exists links, find_listing text = Some links /\ None ∈ links)).
Proof using Type urlsplit_raises urljoin_raises.
  rewrite script_eq, get_all_license_eq. cbv zeta.
  destruct (requests_get (requests st) toplevel.listing_url)
    as [c text| |].
  2,3: cbn; intros [= <-]; repeat split; discriminate.
  destruct (find_listing text) as [links|] eqn:Hl.
  2:{ cbn. intros [= <-]. split; [discriminate|]. split; [discriminate|].
      intros _. exists c, text. auto. }
  pose proof (listing_raises_only links tt
                (add_stdout (FilesToCheck (length links))
                   (add_request toplevel.listing_url st))) as H.
  destruct (for_each document_body links tt _) as [[u|x] st1];
    [discriminate|].
  cbn in *. intros [= <-].
  unfold expected_exn in H.
  destruct H as [ [ -> | [ -> | -> ] ] | [ -> Hin ] ].
  1-3: repeat split; discriminate.
  split; [discriminate|]. split; [discriminate|]. intros _.
  exists c, text. split; [reflexivity|]. right. now exists links.
Qed.

End RunExceptions.

(** *** Invariants of [main] carried over to the whole run *)

(** An assertion that the listing step, every document and the last line
    keep holds throughout a run of the whole script. *)
Lemma script_ends (I E : State -> Prop) :
  hoare I get_all_license (ends I E) ->
  (forall name u, hoare I (license_body name u) (ends I E)) ->
  hoare I (print ErrorFilePresent) (ends I E) ->
  (forall st, I st -> E st) ->
  hoare I script (ends I E).
Proof.
  intros Hlisting Hdoc Hprint HE. unfold toplevel.script.
  apply ends_bind; [exact Hlisting|]. intros links.
  apply ends_bind.
  { apply hoare_for_each. intros licens u.
    destruct licens as [name|]; [apply Hdoc|].
    intros st Hst. now apply HE. }
  intros _. apply ends_bind; [intros st Hst; exact Hst|]. intros b.
  apply ends_bind.
  { destruct b; [exact Hprint|intros st Hst; exact Hst]. }
  intros _ st Hst. exact Hst.
Qed.

(** In a run of the whole script, too, the URLs handed to [scrape] are
    pairwise distinct, every stored value is one that [scrape] returns, the
    broken-link lines printed are the broken results, the error file
    follows stdout, and notes and the ["Errors:"] heading depend on the
    verbose flag as in [main]. *)
Lemma script_keeps_invariants (v o : bool) :
  let st := snd (script (initial v o)) in
  ((forall earlier url body, requests_get earlier url <> Response 0 body) ->
   NoDup (scrape_calls st))
  /\ (forall k s, scraped_links st !! k = Some s -> is_check_result s)
  /\ List.filter is_broken_line (stdout st)
     = List.map line_of (List.filter broken (checked st))
  /\ file_ok (file_of st) (broken_lines st)
  /\ verbosity_ok (verbose st) (noise st).
Proof.
  cbv zeta. split; [|split; [|split; [|split]]].
  - intros Hcode.
    assert (hoare cache_inv script (ends cache_inv calls_distinct)) as H.
    { apply script_ends.
      - unfold toplevel.get_all_license. ends_auto @cache_inv_keeps.
      - intros name u. now apply license_body_cache_inv.
      - apply cache_inv_keeps; keeps_auto.
      - apply cache_inv_distinct. }
    specialize (H _ (initial_cache_inv v o)).
    destruct (fst (script (initial v o)));
      [apply cache_inv_distinct|]; exact H.
  - assert (hoare (over_cache results_ok) script
              (ends (over_cache results_ok) (over_cache results_ok))) as H.
    { apply script_ends; [| | |auto].
      - unfold toplevel.get_all_license.
        ends_auto (@over_cache_keeps results_ok (over_cache results_ok)
                     (fun _ H => H)).
      - intros name u.
        apply (license_body_over_cache results_ok _ (fun _ H => H)
                 check_existing_results_ok).
      - apply (over_cache_keeps results_ok _ (fun _ H => H)); keeps_auto. }
    assert (over_cache results_ok (initial v o)) as H0.
    { intros k' v' Hk. cbn in Hk. now rewrite lookup_empty in Hk. }
    specialize (H _ H0). apply ends_same in H. exact H.
  - assert (hoare (fun st => reports_ok (broken_lines st) (checked st)) script
              (ends (fun st => reports_ok (broken_lines st) (checked st))
                    (fun st => reports_ok (broken_lines st) (checked st))))
      as H.
    { apply script_ends; [| | |auto].
      - unfold toplevel.get_all_license. ends_auto @reports_ok_keeps.
      - intros name u. apply license_body_reports_ok.
      - apply reports_ok_keeps; keeps_auto. }
    specialize (H (initial v o) eq_refl). apply ends_same in H. exact H.
  - assert (hoare (fun st => file_ok (file_of st) (broken_lines st)) script
              (ends (fun st => file_ok (file_of st) (broken_lines st))
                    (fun st => file_ok (file_of st) (broken_lines st))))
      as H.
    { apply script_ends; [| | |auto].
      - unfold toplevel.get_all_license. ends_auto @file_ok_keeps.
      - intros name u. apply license_body_file_ok.
      - apply file_ok_keeps; keeps_auto. }
    assert (file_ok (file_of (initial v o)) (broken_lines (initial v o)))
      as H0 by (unfold file_ok; cbn; now destruct o).
    specialize (H _ H0). apply ends_same in H. exact H.
  - assert (hoare (fun st => verbosity_ok (verbose st) (noise st)) script
              (ends (fun st => verbosity_ok (verbose st) (noise st))
                    (fun st => verbosity_ok (verbose st) (noise st)))) as H.
    { apply script_ends; [| | |auto].
      - unfold toplevel.get_all_license. ends_auto @verbosity_ok_keeps.
      - intros name u. apply license_body_verbosity_ok.
      - apply verbosity_ok_keeps; keeps_auto. }
    assert (verbosity_ok (verbose (initial v o)) (noise (initial v o)))
      as H0 by (unfold verbosity_ok; cbn; now destruct v).
    specialize (H _ H0). apply ends_same in H. exact H.
Qed.

End ScriptProperties.

(** ** Runs on the test bench *)

Example bench_relative_link :
  fst (Bench.check_existing 200 (Bench.a "deed.en") "" Bench.in_by_4)
    = Ok (StatusCode 200)
  /\ scraped_links
       (snd (Bench.check_existing 200 (Bench.a "deed.en") "" Bench.in_by_4))
       !! "https://creativecommons.org/licenses/by/4.0/deed.en"
     = Some (StatusCode 200).
Proof. split; vm_compute; reflexivity. Qed.

(** The result depends on the global [base_url], though not on the argument
    of that name: the same call from two states that differ in the global
    fills the cache under different keys. *)
Example bench_global_base_url :
  dom (scraped_links
         (snd (Bench.check_existing 200 (Bench.a "deed.en") "x"
                 Bench.in_by_4)))
    = {[ "https://creativecommons.org/licenses/by/4.0/deed.en" ]}
  /\ dom (scraped_links
            (snd (Bench.check_existing 200 (Bench.a "deed.en") "x"
                    (set_base_url "https://example.org/a/b"
                       (initial false false)))))
    = {[ "https://example.org/a/deed.en" ]}.
Proof. split; vm_compute; reflexivity. Qed.

(** C1, as stated, fails: a protocol-relative href has no scheme, and its
    result is stored under the href as written, whose scheme is empty; the
    [https] URL is only what is requested. *)
Lemma cache_key_not_normalized :
  let st' :=
    snd (Bench.check_existing 200 (Bench.a "//host/path") "" Bench.in_by_4) in
  urllib.urlsplit "//host/path" = Ok (mkSplit "" "host" "/path" "" "")
  /\ scraped_links st' !! "//host/path" = Some (StatusCode 200)
  /\ scraped_links st' !! "https://host/path" = None
  /\ requests st' = ["https://host/path"]
  /\ ~ (forall key, is_Some (scraped_links st' !! key) ->
          exists u, urllib.urlsplit key = Ok u /\ scheme u = "https").
Proof.
  cbv zeta. do 4 (split; [vm_compute; reflexivity|]).
  intros H. destruct (H "//host/path") as (u & Hu & Hs).
  - exists (StatusCode 200). vm_compute. reflexivity.
  - vm_compute in Hu. injection Hu as <-. discriminate Hs.
Qed.

Lemma cache_key_is_resolved_href_witness :
  exists key,
    scraped_links
      (snd (Bench.check_existing 200 (Bench.a "//host/path") ""
              Bench.in_by_4)) !! key = Some (StatusCode 200)
    /\ key = "//host/path".
Proof.
  destruct (cache_key_is_resolved_href
              urllib.urlsplit urllib.geturl urllib.urljoin (Bench.serves 200)
              (Bench.a "//host/path") "" "//host/path"
              (mkSplit "" "host" "/path" "" "") (StatusCode 200)
              Bench.in_by_4
              (snd (Bench.check_existing 200 (Bench.a "//host/path") ""
                      Bench.in_by_4)))
    as (key & _ & Hstored & _ & Hkey & _).
  - reflexivity.
  - vm_compute. reflexivity.
  - vm_compute. reflexivity.
  - exists key. split; [exact Hstored|].
    apply Hkey. right; left. discriminate.
Defined.

Lemma scrape_at_most_once_per_url_witness :
  let link := Bench.a "deed.en" in
  let key := "https://creativecommons.org/licenses/by/4.0/deed.en" in
  let '(r1, st1) := Bench.check_existing 404 link "" Bench.in_by_4 in
  let '(r2, st2) := Bench.check_existing 404 link "" st1 in
  (r1 = Ok (StatusCode 404) /\ scrape_calls st1 = [key])
  /\ (r2 = Ok (StatusCode 404) /\ st2 = st1)
  /\ NoDup (scrape_calls
              (snd (Bench.main 404
                      [link; Bench.a "#s1"; link;
                       Bench.a "mailto:info@creativecommons.org"]
                      ["by_4.0.html"; "by-sa_4.0_fr.html"; "README.md"]
                      (initial true false)))).
Proof.
  intros link key.
  assert (forall earlier url body,
            Bench.serves 404 earlier url <> Response 0 body) as Hcode
    by (intros earlier url body; discriminate).
  destruct (scrape_at_most_once_per_url
              urllib.urlsplit urllib.geturl urllib.urljoin (Bench.serves 404)
              (Bench.anchors
                 [link; Bench.a "#s1"; link;
                  Bench.a "mailto:info@creativecommons.org"])
              Hcode) as [Hcall Hrun].
  set (analyse := mkSplit "" "" "deed.en" "" "").
  assert (forall st, base_url st = base_url Bench.in_by_4 ->
            create_absolute_link urllib.urljoin analyse "deed.en" st
            = (Ok key, st)) as Hkey.
  { intros st Hb.
    rewrite (create_absolute_link_relative urllib.urljoin analyse "deed.en"
               st eq_refl), Hb.
    reflexivity. }
  unfold Bench.check_existing.
  (* the first call: nothing is stored yet *)
  pose proof (Hcall link "" Bench.in_by_4 "deed.en" analyse key
                (initial_cache_inv false false) eq_refl eq_refl
                (Hkey _ eq_refl)) as H1.
  pose proof (check_existing_keeps urllib.urlsplit urllib.geturl
                urllib.urljoin (Bench.serves 404) base_url link ""
                (fun _ _ => eq_refl) (fun _ _ => eq_refl)
                (fun _ _ => eq_refl) Bench.in_by_4) as Hb1.
  destruct (check_existing _ _ _ _ link "" Bench.in_by_4) as [r1 st1].
  change (scraped_links Bench.in_by_4 !! key)
    with ((∅ : gmap string status) !! key) in H1.
  rewrite lookup_empty in H1.
  destruct H1 as ((Hr1 & Hcalls1 & Hstore1) & _ & Hinv1).
  assert (r1 = Ok (StatusCode 404)) as -> by (rewrite Hr1; reflexivity).
  specialize (Hstore1 _ eq_refl).
  (* the second call: the stored result, and no change *)
  pose proof (Hcall link "" st1 "deed.en" analyse key Hinv1 eq_refl eq_refl
                (Hkey _ Hb1)) as H2.
  destruct (check_existing _ _ _ _ link "" st1) as [r2 st2].
  rewrite Hstore1, lookup_insert_eq in H2.
  destruct H2 as (Hhit & _).
  split; [split; [reflexivity|exact Hcalls1]|]. split; [exact Hhit|].
  (* a whole run *)
  specialize (Hrun true false
                ["by_4.0.html"; "by-sa_4.0_fr.html"; "README.md"]).
  unfold Bench.main.
  destruct (main _ _ _ _ _ _ _) as [r st]. exact (proj1 Hrun).
Defined.

Lemma create_absolute_link_spec_witness :
  create_absolute_link urllib.urljoin (mkSplit "" "" "deed.en" "" "")
    "deed.en" Bench.in_by_4
  = (Ok "https://creativecommons.org/licenses/by/4.0/deed.en", Bench.in_by_4)
  /\ create_absolute_link urllib.urljoin
       (mkSplit "mailto" "" "info@creativecommons.org" "" "")
       "mailto:info@creativecommons.org" Bench.in_by_4
     = (Ok "mailto:info@creativecommons.org", Bench.in_by_4).
Proof.
  split.
  - apply (create_absolute_link_spec urllib.urljoin
             (mkSplit "" "" "deed.en" "" "") "deed.en"
             "https://creativecommons.org/licenses/by/4.0/legalcode"
             Bench.in_by_4 eq_refl).
    simpl. repeat split. discriminate.
  - apply (create_absolute_link_spec urllib.urljoin
             (mkSplit "mailto" "" "info@creativecommons.org" "" "")
             "mailto:info@creativecommons.org"
             "https://creativecommons.org/licenses/by/4.0/legalcode"
             Bench.in_by_4 eq_refl).
    left. discriminate.
Defined.

Lemma scrape_classifies_witness :
  fst (Bench.scrape 404 "//creativecommons.org/about" Bench.in_by_4)
    = Ok (StatusCode 404)
  /\ requests
       (snd (Bench.scrape 404 "//creativecommons.org/about" Bench.in_by_4))
     = ["https://creativecommons.org/about"].
Proof.
  pose proof (scrape_classifies urllib.urlsplit urllib.geturl
                (Bench.serves 404) "//creativecommons.org/about"
                (mkSplit "" "creativecommons.org" "/about" "" "")
                Bench.in_by_4 eq_refl) as H.
  cbv zeta in H. unfold Bench.scrape.
  destruct (scrape _ _ _ _ _) as [res st'].
  destruct H as (_ & _ & H & _).
  destruct (H (or_introl eq_refl)) as (Hreq & Hcode & _).
  split; [exact (Hcode 404 "<html>" eq_refl) | exact Hreq].
Defined.

Lemma fragment_links_never_scraped_witness :
  Bench.link_body 200 "by_4.0.html" (Bench.a "#s1") 0 Bench.in_by_4
  = (Ok 0%nat, Bench.in_by_4).
Proof.
  apply (fragment_links_never_scraped urllib.urlsplit urllib.geturl
           urllib.urljoin (Bench.serves 200) "by_4.0.html" (Bench.a "#s1")
           "s1" 0 Bench.in_by_4 eq_refl).
Defined.

Lemma empty_href_raises_witness :
  Bench.link_body 200 "by_4.0.html" (Bench.a "") 0 Bench.in_by_4
  = (Raise IndexError, Bench.in_by_4).
Proof.
  apply (empty_href_raises urllib.urlsplit urllib.geturl urllib.urljoin
           (Bench.serves 200) "by_4.0.html" (Bench.a "") 0 Bench.in_by_4
           eq_refl).
Defined.

(** ** The model of [urllib.parse] raises nothing but [ValueError] *)

Lemma urlsplit_with_raises default url e :
  urllib.urlsplit_with default url = Raise e -> e = ValueError.
Proof.
  unfold urllib.urlsplit_with.
  repeat match goal with
         | |- context [let '(_, _) := ?x in _] => destruct x
         | |- context [match ?x with _ => _ end] => destruct x
         end; cbn.
  all: try discriminate.
  all: try (intros [= <-]; reflexivity).
  all: match goal with
       | |- context [urllib.cut "#" ?x] =>
           destruct (urllib.cut "#" x) as [rest frag]
       end;
       destruct (urllib.cut "?" rest); discriminate.
Qed.

Lemma urlparse_with_raises default url e :
  urllib.urlparse_with default url = Raise e -> e = ValueError.
Proof.
  unfold urllib.urlparse_with.
  destruct (urllib.urlsplit_with default url) as [u|x] eqn:Hs; cbn.
  - destruct (_ && _); [destruct (urllib.splitparams _)|]; discriminate.
  - intros [= <-]. eapply urlsplit_with_raises, Hs.
Qed.

Lemma urljoin_raises base url e :
  urllib.urljoin base url = Raise e -> e = ValueError.
Proof.
  unfold urllib.urljoin.
  destruct (negb (urllib.nonempty base)); [discriminate|].
  destruct (negb (urllib.nonempty url)); [discriminate|].
  destruct (urllib.urlparse_with "" base) as [[b bparams]|x] eqn:Hb; cbn.
  2:{ intros [= <-]. eapply urlparse_with_raises, Hb. }
  destruct (urllib.urlparse_with (scheme b) url) as [[u params]|x] eqn:Hu;
    cbn.
  2:{ intros [= <-]. eapply urlparse_with_raises, Hu. }
  repeat match goal with
         | |- context [if ?c then _ else _] => destruct c
         end; discriminate.
Qed.

(** ** More runs on the test bench *)

Lemma license_body_skips_non_html_witness :
  bench_license_body 200 [Bench.a "deed.en"] "README.md" tt
    (initial true false)
  = (Ok tt,
     add_stdout (SkipNonHtml "README.md")
       (add_stdout (NowChecking "README.md")
          (add_stdout Blank (initial true false)))).
Proof.
  apply (license_body_skips_non_html urllib.urlsplit urllib.geturl
           urllib.urljoin (Bench.serves 200)
           (Bench.anchors [Bench.a "deed.en"]) "README.md"
           (initial true false)).
  vm_compute. discriminate.
Defined.

Lemma license_body_html_without_underscore_witness :
  bench_license_body 200 [Bench.a "deed.en"] "index.html" tt
    (initial false false)
  = (Raise IndexError,
     add_stdout (NowChecking "index.html")
       (add_stdout Blank (initial false false))).
Proof.
  apply (license_body_html_without_underscore urllib.urlsplit urllib.geturl
           urllib.urljoin (Bench.serves 200)
           (Bench.anchors [Bench.a "deed.en"]) "index"
           (initial false false)).
  cbn. intros H. repeat destruct H as [H|H]; try discriminate H. exact H.
Defined.

Lemma license_body_html_witness :
  base_url
    (snd (bench_license_body 200 [Bench.a "deed.en"] "by_4.0.html" tt
            (initial false false)))
  = Some "https://creativecommons.org/licenses/by/4.0/legalcode".
Proof.
  pose proof (license_body_html urllib.urlsplit urllib.geturl urllib.urljoin
                (Bench.serves 200) (Bench.anchors [Bench.a "deed.en"])
                "by_4.0"
                "https://creativecommons.org/licenses/by/4.0/legalcode"
                (initial false false) eq_refl) as H.
  cbv zeta in H. unfold bench_license_body.
  change ("by_4.0" +:+ ".html") with "by_4.0.html" in H.
  destruct (license_body _ _ _ _ _ "by_4.0.html" tt (initial false false))
    as [r st'].
  exact (proj1 H).
Defined.

Lemma cache_holds_check_results_witness :
  is_check_result (StatusCode 404).
Proof.
  apply (cache_holds_check_results urllib.urlsplit urllib.geturl
           urllib.urljoin (Bench.serves 404)
           (Bench.anchors [Bench.a "deed.en"]) false false ["by_4.0.html"]
           "https://creativecommons.org/licenses/by/4.0/deed.en").
  vm_compute. reflexivity.
Defined.

Lemma cache_is_what_was_scraped_witness :
  size (scraped_links
          (snd (Bench.main 404
                  [Bench.a "deed.en"; Bench.a "deed.en"; Bench.a "//x.org/y"]
                  ["by_4.0.html"] (initial false false))))
  = length (scrape_calls
              (snd (Bench.main 404
                      [Bench.a "deed.en"; Bench.a "deed.en";
                       Bench.a "//x.org/y"]
                      ["by_4.0.html"] (initial false false)))).
Proof.
  assert (forall earlier url body,
            Bench.serves 404 earlier url <> Response 0 body) as Hcode
    by (intros earlier url body; discriminate).
  apply (cache_is_what_was_scraped urllib.urlsplit urllib.geturl
           urllib.urljoin (Bench.serves 404)
           (Bench.anchors
              [Bench.a "deed.en"; Bench.a "deed.en"; Bench.a "//x.org/y"])
           Hcode false false ["by_4.0.html"] 1).
  vm_compute. reflexivity.
Defined.

(** ** Whole runs on the test bench *)

(** C6, as stated, fails: when the page of a document cannot be fetched the
    exception ends the run, the process exits with status 1, and no link
    was checked at all. *)
Lemma exit_status_one_without_broken_link :
  let run :=
    bench_script listing_only [Bench.a "deed.en"] ["by_4.0.html"]
      (initial false false) in
  fst run = Raise RequestException
  /\ exit_status (fst run) = 1
  /\ checked (snd run) = []
  /\ err_code (snd run) = 0
  /\ ~ (exit_status (fst run) = 1 <->
        exists link s, (link, s) ∈ checked (snd run)
          /\ s <> StatusCode 200 /\ s <> StatusStr "ignore").
Proof.
  cbv zeta. do 4 (split; [vm_compute; reflexivity|]).
  intros [H _]. destruct (H ltac:(vm_compute; reflexivity))
    as (link & s & Hin & _).
  vm_compute in Hin. inversion Hin.
Qed.

Lemma exit_status_of_run_witness :
  exit_status
    (fst (bench_script (Bench.serves 404) [Bench.a "deed.en"]
            ["by_4.0.html"] (initial false false))) = 1.
Proof.
  pose proof (exit_status_of_run urllib.urlsplit urllib.geturl
                urllib.urljoin (Bench.serves 404)
                (Bench.anchors [Bench.a "deed.en"])
                (bench_listing ["by_4.0.html"]) false false) as H.
  unfold bench_script.
  destruct (toplevel.script _ _ _ _ _ _ _) as [r st] eqn:E.
  cbv zeta in H. destruct H as (_ & _ & _ & _ & _ & Hone & _).
  cbn [fst]. apply Hone. left.
  exists (Bench.a "deed.en"), (StatusCode 404).
  split; [|split; discriminate].
  replace st with (snd (r, st)) by reflexivity. rewrite <- E.
  vm_compute. constructor.
Defined.

Lemma script_exceptions_witness :
  IndexError <> NameError /\ IndexError <> KeyError.
Proof.
  pose proof (script_exceptions urllib.urlsplit urllib.geturl urllib.urljoin
                (Bench.serves 200) (Bench.anchors [Bench.a ""])
                (bench_listing ["by_4.0.html"])
                (fun href e => urlsplit_with_raises "" href e)
                urljoin_raises (initial false false) IndexError) as H.
  destruct H as (H1 & H2 & _); [vm_compute; reflexivity|].
  split; assumption.
Defined.
